(** * ilp-plugin-ethereum: the per-account settlement engine ([src/account.ts])

    A shallow embedding of [EthereumAccount] and of the properties its
    specification states about it.

    Conventions of the embedding.
    - [BigNumber] amounts are integers ([Z]): on-chain values are wei, packet
      amounts and balances are gwei.  [convert(gwei(x), wei())] multiplies by
      [10^9]; [convert(wei(x), gwei()).dp(0, ROUND_DOWN)] truncates towards
      zero ([Z.quot]).  A claim's [value] is taken after
      [new BigNumber(claim.value)], for strings that denote integers.
    - The methods are asynchronous and mutate [this.account], the store, the
      logger and the peer connection.  They are written in a state-and-
      exception monad [M] over a [World] that collects everything a method can
      touch.  A rejected promise or a [throw] is the [Throw] result; state
      written before the exception stays written, as in JavaScript.
    - The blockchain is an oracle indexed by a clock that every read and every
      [delay] advances, so a retry may observe a different chain.
    - [prepareTransaction] is taken to succeed; the fee it estimates is
      [_txFee].  So is awaiting the contract handle and the gas price in
      [openChannel] and [claimIfProfitable], where a rejection is thrown to
      the caller before anything is submitted.  In [depositToChannel] that
      await comes after the side-queue is set up and outside the promise
      chain that clears it, so there both outcomes are modelled
      ([_providerReady]).
    - Embedded: [validateClaim], [createClaim], [signClaim], [sendClaim],
      [sendMoney], [depositToChannel], [claimIfProfitable], [refreshChannel],
      [linkEthereumAddress], [handleData], [fetchEthereumAddress],
      [openChannel], [fundOutgoingChannel], the task of
      [autoFundOutgoingChannel], [handlePrepareResponse], one firing of the
      channel watcher and [requestClose].  Inside the other methods a call of
      [autoFundOutgoingChannel] is recorded as a request, since they do not
      await it.  Persisting the account snapshot is left out: the store holds
      the [channelId -> accountName] registry. *)

From Stdlib Require Import ZArith Lia List Bool String Ascii Sorted.
From stdpp Require Import base option gmap strings.
Import ListNotations.

Local Open Scope string_scope.
Local Open Scope Z_scope.

(** ** Data model *)

(** [PaymentChannel] / [ClaimablePaymentChannel] of [utils/channel]: the
    on-chain fields plus the latest claim ([spent], [signature]). *)
Record Channel := mkChannel {
  channelId : string;
  contractAddress : string;
  sender : string;
  receiver : string;
  value : Z;
  disputePeriod : Z;
  disputedUntil : option Z;
  spent : Z;
  signature : option string
}.

(** [SerializedClaim]: the JSON payload of a [machinomy] message. *)
Module Claim.
Record t := mk {
  channelId : string;
  signature : string;
  value : Z;
  contractAddress : string
}.
End Claim.

(** What the contract stores for a channel id. *)
Record OnChain := mkOnChain {
  oc_sender : string;
  oc_receiver : string;
  oc_value : Z;
  oc_disputePeriod : Z;
  oc_disputedUntil : option Z
}.

(** [AccountData]; the two reducer queues are represented by the cell each
    one serialises. *)
Record AccountData := mkAccount {
  accountName : string;
  receivableBalance : Z;
  payableBalance : Z;
  payoutAmount : Z;
  ethereumAddress : option string;
  incoming : option Channel;
  outgoing : option Channel
}.

Inductive LogLevel := Debug | Info | Error.

(** Contract calls built by [prepareTransaction]. *)
Inductive Transaction :=
| TxOpen (id peer : string) (period value : Z)
| TxDeposit (id : string) (value : Z)
| TxClaim (id : string) (spent : Z) (sig : option string).

(** BTP sub-protocol messages this account sends to its peer. *)
Inductive Message :=
| MsgInfo (address : string)
| MsgChannelDeposit
| MsgRequestClose
| MsgMachinomy (channelId : string) (signature : option string) (value : Z)
    (contractAddress : string).

Inductive Exn :=
| AmountTooLargeError
| InsufficientLiquidityError
| SyntaxError
| TypeError
| HandlerError
| AuthorizeRejected
| TransactionFailed
| RefreshFailed
| ProviderError.

(** Everything a method of the account reads or writes. *)
Record World := mkWorld {
  account : AccountData;
  depositQueue : option (option Channel);
  store : gmap string string;
  clock : nat;
  log : list (LogLevel * string);
  moneyCalls : list Z;
  sent : list Message;
  transactions : list Transaction;
  watcher : bool;
  autoFundRequests : nat
}.

Inductive Result (A : Type) :=
| Ok (a : A)
| Throw (e : Exn).
Arguments Ok {A} a.
Arguments Throw {A} e.

Definition M (A : Type) : Type := World -> Result A * World.

Definition ret {A} (a : A) : M A := fun w => (Ok a, w).
Definition throw {A} (e : Exn) : M A := fun w => (Throw e, w).
Definition bind {A B} (m : M A) (k : A -> M B) : M B :=
  fun w => match m w with
           | (Ok a, w') => k a w'
           | (Throw e, w') => (Throw e, w')
           end.
(** [try { m } catch (err) { h err }] and [m.catch(h)]. *)
Definition catch {A} (m : M A) (h : Exn -> M A) : M A :=
  fun w => match m w with
           | (Ok a, w') => (Ok a, w')
           | (Throw e, w') => h e w'
           end.

Notation "'let*' x ':=' m 'in' k" := (bind m (fun x => k))
  (at level 10, x name, m at level 100, k at level 200).
Notation "m ';;' k" := (bind m (fun _ => k))
  (at level 100, k at level 200, right associativity).

(** *** Field updates *)

Definition with_account (f : AccountData -> AccountData) (w : World) : World :=
  mkWorld (f (account w)) (depositQueue w) (store w) (clock w) (log w)
          (moneyCalls w) (sent w) (transactions w) (watcher w)
          (autoFundRequests w).

Definition set_receivableBalance (b : Z) (a : AccountData) : AccountData :=
  mkAccount (accountName a) b (payableBalance a) (payoutAmount a)
            (ethereumAddress a) (incoming a) (outgoing a).
Definition set_payableBalance (b : Z) (a : AccountData) : AccountData :=
  mkAccount (accountName a) (receivableBalance a) b (payoutAmount a)
            (ethereumAddress a) (incoming a) (outgoing a).
Definition set_payoutAmount (b : Z) (a : AccountData) : AccountData :=
  mkAccount (accountName a) (receivableBalance a) (payableBalance a) b
            (ethereumAddress a) (incoming a) (outgoing a).
Definition set_incoming (c : option Channel) (a : AccountData) : AccountData :=
  mkAccount (accountName a) (receivableBalance a) (payableBalance a)
            (payoutAmount a) (ethereumAddress a) c (outgoing a).
Definition set_outgoing (c : option Channel) (a : AccountData) : AccountData :=
  mkAccount (accountName a) (receivableBalance a) (payableBalance a)
            (payoutAmount a) (ethereumAddress a) (incoming a) c.

Definition set_depositQueue (q : option (option Channel)) (w : World) : World :=
  mkWorld (account w) q (store w) (clock w) (log w) (moneyCalls w) (sent w)
          (transactions w) (watcher w) (autoFundRequests w).
Definition set_store (s : gmap string string) (w : World) : World :=
  mkWorld (account w) (depositQueue w) s (clock w) (log w) (moneyCalls w)
          (sent w) (transactions w) (watcher w) (autoFundRequests w).
Definition set_clock (n : nat) (w : World) : World :=
  mkWorld (account w) (depositQueue w) (store w) n (log w) (moneyCalls w)
          (sent w) (transactions w) (watcher w) (autoFundRequests w).
Definition set_log (l : list (LogLevel * string)) (w : World) : World :=
  mkWorld (account w) (depositQueue w) (store w) (clock w) l (moneyCalls w)
          (sent w) (transactions w) (watcher w) (autoFundRequests w).
Definition set_moneyCalls (l : list Z) (w : World) : World :=
  mkWorld (account w) (depositQueue w) (store w) (clock w) (log w) l (sent w)
          (transactions w) (watcher w) (autoFundRequests w).
Definition set_sent (l : list Message) (w : World) : World :=
  mkWorld (account w) (depositQueue w) (store w) (clock w) (log w)
          (moneyCalls w) l (transactions w) (watcher w) (autoFundRequests w).
Definition set_transactions (l : list Transaction) (w : World) : World :=
  mkWorld (account w) (depositQueue w) (store w) (clock w) (log w)
          (moneyCalls w) (sent w) l (watcher w) (autoFundRequests w).
Definition set_watcher (b : bool) (w : World) : World :=
  mkWorld (account w) (depositQueue w) (store w) (clock w) (log w)
          (moneyCalls w) (sent w) (transactions w) b (autoFundRequests w).
Definition set_autoFundRequests (n : nat) (w : World) : World :=
  mkWorld (account w) (depositQueue w) (store w) (clock w) (log w)
          (moneyCalls w) (sent w) (transactions w) (watcher w) n.

(** *** Primitive effects *)

Definition get {A} (f : World -> A) : M A := fun w => (Ok (f w), w).
Definition modify (f : World -> World) : M unit := fun w => (Ok tt, f w).

(** [this.master._log.debug/info/error(msg)]: newest entry first. *)
Definition logAt (l : LogLevel) (msg : string) : M unit :=
  modify (fun w => set_log ((l, msg) :: log w) w).

(** [await delay(ms)]: time passes. *)
Definition delay (ms : Z) : M unit :=
  modify (fun w => set_clock (S (clock w)) w).

(** ** Units *)

Definition GWEI : Z := 1000000000.

(** [convert(gwei(x), wei())] *)
Definition gweiToWei (x : Z) : Z := x * GWEI.
(** [convert(wei(x), gwei()).decimalPlaces(0, BigNumber.ROUND_DOWN)] *)
Definition weiToGweiDown (x : Z) : Z := Z.quot x GWEI.

(** ** Strings *)

Definition lowerAscii (c : ascii) : ascii :=
  let n := nat_of_ascii c in
  if (Nat.leb 65 n && Nat.leb n 90)%bool then ascii_of_nat (n + 32) else c.

(** [String.prototype.toLowerCase] on the ASCII strings addresses are. *)
Fixpoint toLowerCase (s : string) : string :=
  match s with
  | EmptyString => EmptyString
  | String c s' => String (lowerAscii c) (toLowerCase s')
  end.

Definition eqs (a b : string) : bool := bool_decide (a = b).

(** ** The plugin the account belongs to, and its collaborators

    [this.master]: the configuration shared by all accounts, the wallet, the
    contract and the signer.  The last six fields stand for the Ethereum
    node, the secp256k1 library and ethers, which the account only calls. *)
Record EthereumPlugin := mkPlugin {
  _wallet_address : string;
  _contract_address : string;
  _maxPacketAmount : Z;
  _maxBalance : Z;
  _minIncomingDisputePeriod : Z;
  _outgoingDisputePeriod : Z;
  _outgoingChannelAmount : Z;
  _minIncomingChannelAmount : Z;
  (** the contract's [channels(id)] at a given time; [None]: no such channel *)
  _channels : nat -> string -> option OnChain;
  (** [isValidClaimSignature(secp256k1)(claim, channel)] *)
  _isValidClaimSignature : Claim.t -> Channel -> bool;
  (** the flat signature of [createPaymentDigest(contract, id, value)] *)
  _sign : string -> string -> Z -> string;
  (** the fee [prepareTransaction] estimates *)
  _txFee : Transaction -> Z;
  (** whether [_queueTransaction] resolves for a call submitted at a time *)
  _txConfirms : nat -> Transaction -> bool;
  (** whether [ethers.utils.getAddress] accepts the string (it throws otherwise) *)
  _isAddress : string -> bool;
  (** whether awaiting [this.master._contract] and [this.master._getGasPrice()]
      resolves at a given time (it rejects otherwise) *)
  _providerReady : nat -> bool
}.

(** Replies of the data handler to a forwarded PREPARE. *)
Inductive IlpReply :=
| Fulfill
| Reject (code : string).

(** ** Messages from the peer *)

(** What [JSON.parse] yields, as far as the account looks at it: for an
    object (or array), each property the code reads is [Some] exactly when it
    is a string; [value] holds the integer its numeral denotes. *)
Inductive Json :=
| JNull
| JPrimitive
| JObject (ethereumAddress : option string) (value : option Z)
    (channelId signature contractAddress : option string).

(** The [data] of a sub-protocol: bytes that [JSON.parse] accepts, a
    serialized ILP PREPARE with its amount, or anything else. *)
Inductive Buffer :=
| BufJson (j : Json)
| BufPrepare (amount : Z)
| BufRaw.

(** A BTP message, by the first sub-protocol [handleData] finds in it (it
    looks for [info], [channelDeposit], [requestClose], [machinomy] and [ilp]
    in this order). *)
Inductive BtpPacket :=
| PInfo (data : Buffer)
| PChannelDeposit
| PRequestClose
| PMachinomy (data : Buffer)
| PIlp (data : Buffer)
| PNone.

(** The [data] of an [ilp] response: the handler's reply, or
    [errorToReject('', err)]. *)
Inductive IlpResponse :=
| Replied (reply : IlpReply)
| ErrorToReject (err : Exn).

(** The sub-protocols [handleData] answers with. *)
Inductive BtpSubProtocol :=
| SubInfo (ethereumAddress : string)
| SubIlp (data : IlpResponse).

Section Account.

Variable master : EthereumPlugin.

(** [this.moneyHandler]: [true] when the returned promise resolves. *)
Variable moneyHandler : Z -> bool.

(** [this.dataHandler]: the reply to a PREPARE of the given amount, or an
    exception.  The handler is awaited, so other tasks of the account may run
    meanwhile: it also transforms the account's data. *)
Variable dataHandler : Z -> AccountData -> Result IlpReply * AccountData.

(** ** utils/channel *)

(** The channel with the given id as the contract shows it at a given time;
    a channel fresh from the chain carries no claim. *)
Definition channelAt (time : nat) (id : string) : option Channel :=
  match _channels master time id with
  | Some oc =>
      Some (mkChannel id (_contract_address master) (oc_sender oc)
              (oc_receiver oc) (oc_value oc) (oc_disputePeriod oc)
              (oc_disputedUntil oc) 0 None)
  | None => None
  end.

(** Modelled from the spec: [fetchChannel] of [utils/channel] is not among the
    sources.  It reads the channel by id on-chain and returns the channel
    fields or absent (spec 6, on-chain adapter (a)). *)
Definition fetchChannel (id : string) : M (option Channel) :=
  fun w => (Ok (channelAt (clock w) id), set_clock (S (clock w)) w).

(** Modelled from the spec: [updateChannel] of [utils/channel] is not among
    the sources.  It refreshes the on-chain fields of a cached channel and
    keeps its claim; absent when the channel is gone (spec 4.4, 4.7). *)
Definition updateChannel (cached : Channel) : M (option Channel) :=
  let* fetched := fetchChannel (channelId cached) in
  ret (match fetched with
       | Some c =>
           Some (mkChannel (channelId cached) (contractAddress cached)
                   (sender c) (receiver c) (value c) (disputePeriod c)
                   (disputedUntil c) (spent cached) (signature cached))
       | None => None
       end).

(** Modelled from the spec: [spentFromChannel] of [utils/channel] is not
    among the sources.  [spent] is the amount paid via the latest signed claim
    (spec 3). *)
Definition spentFromChannel (c : Channel) : Z := spent c.

(** Modelled from the spec: [remainingInChannel] of [utils/channel] is not
    among the sources.  Remaining capacity is [value - spent] (spec 4.2). *)
Definition remainingInChannel (c : Channel) : Z := value c - spentFromChannel c.

(** Modelled from the spec: [isDisputed] of [utils/channel] is not among the
    sources.  When [disputedUntil] is set the channel is in dispute (spec 3). *)
Definition isDisputed (c : Channel) : bool :=
  match disputedUntil c with Some _ => true | None => false end.

(** ** validateClaim *)

Definition callMoneyHandler (amount : Z) : M unit :=
  fun w =>
    let w' := set_moneyCalls (amount :: moneyCalls w) w in
    if moneyHandler amount then (Ok tt, w') else (Throw HandlerError, w').

Definition channelKey (id : string) : string := String.append id ":incoming-channel".

(** The state [validateClaim] returns when it accepts a claim. *)
Definition acceptedChannel (claim : Claim.t) (updatedChannel : Channel) : Channel :=
  mkChannel (Claim.channelId claim) (Claim.contractAddress claim)
    (sender updatedChannel) (receiver updatedChannel) (value updatedChannel)
    (disputePeriod updatedChannel) (disputedUntil updatedChannel)
    (Claim.value claim) (Some (Claim.signature claim)).

(** [validateClaim(claim)(cachedChannel, attempts)].  The source retries while
    [attempts <= 20]; [retries] counts the retries still allowed, so the call
    with [attempts = a] is [validateClaimFrom (21 - a)]. *)
Fixpoint validateClaimFrom (retries : nat) (claim : Claim.t)
    (cachedChannel : option Channel) : M (option Channel) :=
  let shouldFetchChannel :=
    match cachedChannel with
    | None => true
    | Some c => value c <? Claim.value claim
    end in
  let* updatedChannel :=
    (if shouldFetchChannel then fetchChannel (Claim.channelId claim)
     else ret cachedChannel) in
  (* everything after the checks that depend on whether a claim is cached *)
  let universal (updatedChannel : Channel) : M (option Channel) :=
    let hasNegativeValue := Claim.value claim <? 0 in
    if hasNegativeValue then
      logAt Error "Invalid claim: value is negative";;
      ret cachedChannel
    else
    let wrongContract :=
      negb (eqs (toLowerCase (Claim.contractAddress claim))
                (toLowerCase (_contract_address master))) in
    if wrongContract then
      logAt Debug "Invalid claim: sender is using a different contract or network";;
      ret cachedChannel
    else
    let isSigned := _isValidClaimSignature master claim updatedChannel in
    if negb isSigned then
      logAt Debug "Invalid claim: signature is invalid";;
      ret cachedChannel
    else
    let sufficientChannelValue := Claim.value claim <=? value updatedChannel in
    if negb sufficientChannelValue then
      match retries with
      | O =>
          logAt Debug "Invalid claim: value is above value of channel, despite several attempts to refresh channel state";;
          ret cachedChannel
      | S retries' =>
          delay 250;;
          validateClaimFrom retries' claim cachedChannel
      end
    else
    (* the uniqueness step, for a new channel; [true]: already linked *)
    let* alreadyLinked :=
      match cachedChannel with
      | Some _ => ret false
      | None =>
          let* linkedAccount :=
            get (fun w => store w !! channelKey (Claim.channelId claim)) in
          match linkedAccount with
          | Some _ =>
              logAt Debug "Invalid claim: channel is already linked to a different account";;
              ret true
          | None =>
              modify (fun w =>
                set_store (<[channelKey (Claim.channelId claim) :=
                               accountName (account w)]> (store w)) w);;
              logAt Debug "Incoming channel is now linked to account";;
              ret false
          end
      end in
    if alreadyLinked : bool then ret cachedChannel else
    let claimIncrement :=
      Z.min (Claim.value claim) (value updatedChannel)
      - match cachedChannel with Some c => spent c | None => 0 end in
    let isBestClaim := 0 <? claimIncrement in
    if (negb isBestClaim && bool_decide (is_Some cachedChannel))%bool then
      logAt Debug "Invalid claim: value is less than previous claim";;
      ret cachedChannel
    else
    (if isBestClaim then
       let amount := weiToGweiDown claimIncrement in
       modify (with_account (fun a =>
         set_receivableBalance (receivableBalance a - amount) a));;
       callMoneyHandler amount
     else ret tt);;
    logAt Debug "Accepted incoming claim";;
    modify (set_watcher true);;
    ret (Some (acceptedChannel claim updatedChannel))
  in
  match cachedChannel, updatedChannel with
  | None, None =>
      match retries with
      | O =>
          logAt Debug "Invalid claim: channel doesn't exist, despite several attempts to refresh channel state";;
          ret cachedChannel
      | S retries' =>
          delay 250;;
          validateClaimFrom retries' claim cachedChannel
      end
  | None, Some updatedChannel =>
      let amReceiver :=
        eqs (toLowerCase (receiver updatedChannel))
            (toLowerCase (_wallet_address master)) in
      if negb amReceiver then
        logAt Debug "Invalid claim: the recipient for new channel is not this wallet";;
        ret cachedChannel
      else
      let isAboveMinDisputePeriod :=
        _minIncomingDisputePeriod master <=? disputePeriod updatedChannel in
      if negb isAboveMinDisputePeriod then
        logAt Debug "Invalid claim: new channel has dispute period below floor";;
        ret cachedChannel
      else universal updatedChannel
  | Some cached, None =>
      logAt Error "Invalid claim: channel is unexpectedly closed";;
      ret cachedChannel
  | Some cached, Some updatedChannel =>
      let wrongChannel :=
        negb (eqs (Claim.channelId claim) (channelId cached)) in
      if wrongChannel then
        logAt Debug "Invalid claim: channel is not the previously linked channel";;
        ret cachedChannel
      else universal updatedChannel
  end.

(** The reducer as the incoming queue first calls it: [attempts = 0]. *)
Definition validateClaim (claim : Claim.t) (cachedChannel : option Channel)
  : M (option Channel) :=
  validateClaimFrom 21 claim cachedChannel.

(** ** utils/queue *)

(** Modelled from the spec: [ReducerQueue] of [utils/queue] is not among the
    sources.  [add(reducer)] runs the reducer on the latest committed value;
    a successful reduction commits its result, a failed one leaves the prior
    state intact and surfaces the error to that caller only (spec 4.1).  The
    reducers of one queue run strictly one at a time, so in this sequential
    model a reducer runs when it is added.  A queue is given by how its cell
    is read and written. *)
Definition queueAdd (read : World -> option Channel)
    (write : option Channel -> World -> World)
    (reducer : option Channel -> M (option Channel)) : M (option Channel) :=
  fun w =>
    match reducer (read w) w with
    | (Ok s, w') => (Ok s, write s w')
    | (Throw e, w') => (Throw e, w')
    end.

Definition incomingAdd := queueAdd (fun w => incoming (account w))
                                   (fun s => with_account (set_incoming s)).
Definition outgoingAdd := queueAdd (fun w => outgoing (account w))
                                   (fun s => with_account (set_outgoing s)).
(** The deposit side-queue, while it exists. *)
Definition depositQueueAdd :=
  queueAdd (fun w => match depositQueue w with Some s => s | None => None end)
           (fun s => set_depositQueue (Some s)).

(** ** Outgoing settlement *)

(** [this.autoFundOutgoingChannel()] adds a reducer to the outgoing queue and
    is never awaited by the methods below; they only request it. *)
Definition autoFundOutgoingChannel : M unit :=
  modify (fun w => set_autoFundRequests (S (autoFundRequests w)) w).

(** [this.sendMessage(...)]: the message leaves; the callers below discard
    the answer and catch transmission errors. *)
Definition sendMessage (m : Message) : M unit :=
  modify (fun w => set_sent (m :: sent w) w).

Definition signClaim (newSpent : Z) (cachedChannel : Channel) : Channel :=
  let flatSignature :=
    _sign master (contractAddress cachedChannel) (channelId cachedChannel) newSpent in
  mkChannel (channelId cachedChannel) (contractAddress cachedChannel)
    (sender cachedChannel) (receiver cachedChannel) (value cachedChannel)
    (disputePeriod cachedChannel) (disputedUntil cachedChannel)
    newSpent (Some flatSignature).

Definition sendClaim (c : Channel) : M unit :=
  sendMessage (MsgMachinomy (channelId c) (signature c) (spent c) (contractAddress c)).

Definition createClaim (cachedChannel : option Channel) : M (option Channel) :=
  autoFundOutgoingChannel;;
  let* payout := get (fun w => payoutAmount (account w)) in
  let settlementBudget := gweiToWei payout in
  if settlementBudget <=? 0 then ret cachedChannel else
  match cachedChannel with
  | None =>
      logAt Debug "Cannot send claim: no channel is open";;
      ret cachedChannel
  | Some channel =>
      if negb (0 <? remainingInChannel channel) then
        logAt Debug "Cannot send claim to: no remaining funds in outgoing channel";;
        ret cachedChannel
      else
      let claimIncrement := Z.min (remainingInChannel channel) settlementBudget in
      logAt Info "Settlement attempt triggered";;
      let newSpent := spentFromChannel channel + claimIncrement in
      let updatedChannel := signClaim newSpent channel in
      logAt Debug "Sending claim";;
      sendClaim updatedChannel;;
      let claimIncrementGwei := weiToGweiDown claimIncrement in
      modify (with_account (fun a =>
        set_payableBalance (payableBalance a - claimIncrementGwei) a));;
      modify (with_account (fun a =>
        set_payoutAmount (Z.min 0 (payoutAmount a - claimIncrementGwei)) a));;
      ret (Some updatedChannel)
  end.

(** [sendMoney(amount?)]; [None]: no amount given. *)
Definition sendMoney (amount : option Z) : M unit :=
  let* payable := get (fun w => payableBalance (account w)) in
  let amountToSend :=
    match amount with Some a => a | None => Z.max 0 payable end in
  modify (with_account (fun a =>
    set_payoutAmount (payoutAmount a + amountToSend) a));;
  let* side := get depositQueue in
  match side with
  | Some _ => depositQueueAdd createClaim;; ret tt
  | None => outgoingAdd createClaim;; ret tt
  end.

(** [this.master._queueTransaction(sendTransaction)] *)
Definition queueTransaction (tx : Transaction) : M unit :=
  fun w =>
    let w' := set_transactions (tx :: transactions w) w in
    if _txConfirms master (clock w) tx
    then (Ok tt, set_clock (S (clock w')) w')
    else (Throw TransactionFailed, w').

(** [refreshChannel(channelOrId, predicate)(attempts)]: [fetch] is
    [fetchChannel] for an id and [updateChannel] for a channel.  The source
    throws once [attempts > 20]; [retries] is [21 - attempts]. *)
Fixpoint refreshChannelFrom (retries : nat) (fetch : M (option Channel))
    (predicate : option Channel -> bool) : M (option Channel) :=
  match retries with
  | O => throw RefreshFailed
  | S retries' =>
      let* updatedChannel := fetch in
      if predicate updatedChannel then ret updatedChannel
      else delay 1000;; refreshChannelFrom retries' fetch predicate
  end.

Definition refreshChannel := refreshChannelFrom 21.

(** [this.depositQueue.clear()] followed by [delete this.depositQueue]. *)
Definition clearDepositQueue : M (option Channel) :=
  let* side := get depositQueue in
  modify (set_depositQueue None);;
  ret (match side with Some s => s | None => None end).

(** The [sendMoney] calls of other tasks, each with its own error handling. *)
Fixpoint concurrently (pending : list (option Z)) : M unit :=
  match pending with
  | [] => ret tt
  | amount :: rest =>
      catch (sendMoney amount) (fun _ => ret tt);;
      concurrently rest
  end.

(** [await this.master._contract] and [await this.master._getGasPrice()], the
    arguments of [prepareTransaction] in [depositToChannel]: they are
    evaluated before [.then] and [.catch] are attached, so a rejection there
    is thrown by the method itself. *)
Definition awaitProvider : M unit :=
  fun w =>
    if _providerReady master (clock w) then (Ok tt, w)
    else (Throw ProviderError, w).

(** [depositToChannel(channel, value, authorize)].  The method suspends while
    the transaction is prepared, authorised, mined and confirmed, and other
    tasks of the account run meanwhile: [pending] lists the [sendMoney] calls
    that arrive before the side-queue is cleared.  They find
    [this.depositQueue] set and add their claims to it; they touch nothing
    the deposit itself reads, so the model runs them at the first
    suspension. *)
Definition depositToChannel (channel : Channel) (deposit : Z)
    (authorize : Z -> bool) (pending : list (option Z)) : M (option Channel) :=
  modify (set_depositQueue (Some (Some channel)));;
  catch (depositQueueAdd createClaim;; ret tt)
        (fun _ => logAt Error "Error queuing task to create new claim:");;
  let totalNewValue := value channel + deposit in
  let isDepositSuccessful (updatedChannel : option Channel) : bool :=
    match updatedChannel with
    | Some c => value c =? totalNewValue
    | None => false
    end in
  let tx := TxDeposit (channelId channel) deposit in
  let txFee := _txFee master tx in
  concurrently pending;;
  awaitProvider;;
  catch
    ((if authorize txFee then ret tt else throw AuthorizeRejected);;
     logAt Debug "Depositing to channel";;
     queueTransaction tx;;
     let* updatedChannel :=
       refreshChannel (updateChannel channel) isDepositSuccessful in
     logAt Debug "Informing peer of channel top-up";;
     sendMessage MsgChannelDeposit;;
     logAt Debug "Successfully deposited to channel";;
     let* forkedState := clearDepositQueue in
     ret (match forkedState with
          | Some forked =>
              match updatedChannel with
              | Some updated =>
                  Some (mkChannel (channelId updated)
                          (contractAddress updated) (sender updated)
                          (receiver updated) (value updated)
                          (disputePeriod updated) (disputedUntil updated)
                          (spent forked) (signature forked))
              | None => None (* excluded by the type guard [isDepositSuccessful] *)
              end
          | None => updatedChannel
          end))
    (fun err =>
       logAt Error "Failed to deposit to channel:";;
       clearDepositQueue).

(** ** Claiming the incoming channel *)

(** The reducer [claimIfProfitable(requireDisputed, authorize)] adds to the
    incoming queue; [authorize = None]: no callback was supplied. *)
Definition claimIfProfitableReducer (requireDisputed : bool)
    (authorize : option (Channel -> Z -> bool))
    (cachedChannel : option Channel) : M (option Channel) :=
  match cachedChannel with
  | None => ret cachedChannel
  | Some cached =>
      let* updatedChannel := updateChannel cached in
      match updatedChannel with
      | None =>
          logAt Error "Cannot claim channel: linked channel is unexpectedly closed";;
          ret updatedChannel
      | Some updated =>
          if (requireDisputed && negb (isDisputed updated))%bool then
            logAt Debug "Won't claim channel: channel is not disputed";;
            ret updatedChannel
          else
          logAt Debug "Attempting to claim channel";;
          let tx := TxClaim (channelId updated) (spent updated) (signature updated) in
          let txFee := _txFee master tx in
          let* proceed :=
            match authorize with
            | Some authorize => ret (authorize updated txFee)
            | None =>
                if spent updated <=? txFee then
                  logAt Debug "Not profitable to claim channel";;
                  ret false
                else ret true
            end in
          if negb proceed then ret updatedChannel else
          catch (queueTransaction tx)
                (fun err => logAt Error "Failed to claim channel:";; throw err);;
          let* closedChannel :=
            refreshChannel (updateChannel updated)
                           (fun c => negb (bool_decide (is_Some c))) in
          logAt Debug "Successfully claimed incoming channel";;
          ret closedChannel
      end
  end.

Definition claimIfProfitable (requireDisputed : bool)
    (authorize : option (Channel -> Z -> bool)) : M (option Channel) :=
  incomingAdd (claimIfProfitableReducer requireDisputed authorize).

(** ** handleData *)

Definition JSON_parse (data : Buffer) : M Json :=
  match data with
  | BufJson j => ret j
  | _ => throw SyntaxError
  end.

Definition deserializeIlpPrepare (data : Buffer) : M Z :=
  match data with
  | BufPrepare amount => ret amount
  | _ => throw SyntaxError
  end.

Definition callDataHandler (amount : Z) : M IlpReply :=
  fun w =>
    let (reply, a) := dataHandler amount (account w) in
    (reply, with_account (fun _ => a) w).

Definition set_ethereumAddress (e : option string) (a : AccountData) : AccountData :=
  mkAccount (accountName a) (receivableBalance a) (payableBalance a)
            (payoutAmount a) e (incoming a) (outgoing a).

Definition linkEthereumAddress (info : Buffer) : M unit :=
  catch
    (let* parsed := JSON_parse info in
     match parsed with
     | JNull => throw TypeError
     | JPrimitive | JObject None _ _ _ _ =>
         logAt Debug "Failed to link Ethereum address: invalid response, no address provided"
     | JObject (Some address) _ _ _ _ =>
         (if _isAddress master address then ret tt else throw TypeError);;
         let* currentAddress := get (fun w => ethereumAddress (account w)) in
         match currentAddress with
         | Some current =>
             if negb (eqs current "") then
               if eqs (toLowerCase current) (toLowerCase address)
               then ret tt
               else logAt Debug "Cannot link Ethereum address: another is already linked for the lifetime of the account"
             else
               modify (with_account (set_ethereumAddress (Some address)));;
               logAt Debug "Successfully linked Ethereum address"
         | None =>
             modify (with_account (set_ethereumAddress (Some address)));;
             logAt Debug "Successfully linked Ethereum address"
         end
     end)
    (fun err => logAt Debug "Failed to link Ethereum address").

(** [checkForDeposit(attempts)] of the [channelDeposit] branch; it gives up
    once [attempts > 20], and [retries] is [21 - attempts]. *)
Fixpoint checkForDeposit (retries : nat) (cachedChannel : Channel) : M unit :=
  match retries with
  | O => logAt Debug "Failed to confirm incoming deposit after several attempts"
  | S retries' =>
      let* updatedChannel := updateChannel cachedChannel in
      match updatedChannel with
      | None => ret tt
      | Some updatedChannel =>
          let wasDeposit := value cachedChannel <? value updatedChannel in
          if negb wasDeposit then
            delay 250;;
            checkForDeposit retries' cachedChannel
          else
            incomingAdd (fun newCachedChannel =>
              match newCachedChannel with
              | Some newCached =>
                  let isSameChannel :=
                    (eqs (channelId newCached) (channelId cachedChannel)
                     && (disputePeriod newCached =? disputePeriod cachedChannel)
                     && eqs (sender newCached) (sender cachedChannel)
                     && eqs (receiver newCached) (receiver cachedChannel))%bool in
                  if negb isSameChannel then
                    logAt Debug "Incoming channel was closed while confirming deposit: reverting to old state";;
                    ret newCachedChannel
                  else
                    logAt Debug "Confirmed deposit to incoming channel";;
                    ret (Some (mkChannel (channelId newCached)
                                 (contractAddress newCached) (sender newCached)
                                 (receiver newCached)
                                 (Z.max (value updatedChannel) (value newCached))
                                 (disputePeriod newCached) (disputedUntil newCached)
                                 (spent newCached) (signature newCached)))
              | None =>
                  logAt Debug "Incoming channel was closed while confirming deposit: reverting to old state";;
                  ret newCachedChannel
              end);;
            ret tt
      end
  end.

Definition handleData (message : BtpPacket) : M (list BtpSubProtocol) :=
  match message with
  | PInfo info =>
      linkEthereumAddress info;;
      ret [SubInfo (_wallet_address master)]
  | PChannelDeposit =>
      let* cachedChannel := get (fun w => incoming (account w)) in
      match cachedChannel with
      | None => ret []
      | Some cachedChannel =>
          logAt Debug "Checking if peer has deposited to channel";;
          catch (checkForDeposit 21 cachedChannel)
                (fun err => logAt Error "Error confirming incoming deposit:");;
          ret []
      end
  | PRequestClose =>
      logAt Info "Channel close requested";;
      catch (claimIfProfitable false (Some (fun _ _ => true));; ret tt)
            (fun err => logAt Error "Error attempting to claim channel");;
      ret []
  | PMachinomy machinomy =>
      logAt Debug "Handling Machinomy claim";;
      (* If JSON is semantically invalid, this will throw *)
      let* claim := JSON_parse machinomy in
      match claim with
      | JNull => throw TypeError
      | JObject _ (Some amount) (Some id) (Some sig) (Some contract) =>
          catch (incomingAdd (validateClaim (Claim.mk id sig amount contract));;
                 ret tt)
                (fun err => logAt Error "Failed to validate claim: ");;
          autoFundOutgoingChannel;;
          ret []
      | _ =>
          logAt Debug "Invalid claim: schema is malformed";;
          ret []
      end
  | PIlp ilp =>
      catch
        (let* amount := deserializeIlpPrepare ilp in
         if _maxPacketAmount master <? amount then throw AmountTooLargeError else
         let* receivable := get (fun w => receivableBalance (account w)) in
         let newBalance := receivable + amount in
         if _maxBalance master <? newBalance then
           logAt Debug "Cannot forward PREPARE: proposed balance exceeds maximum";;
           throw InsufficientLiquidityError
         else
         logAt Debug "Forwarding PREPARE: Debited";;
         modify (with_account (set_receivableBalance newBalance));;
         let* reply := callDataHandler amount in
         match reply with
         | Reject _ =>
             logAt Debug "Credited in response to REJECT";;
             modify (with_account (fun a =>
               set_receivableBalance (receivableBalance a - amount) a))
         | Fulfill =>
             logAt Debug "Received FULFILL in response to forwarded PREPARE"
         end;;
         ret [SubIlp (Replied reply)])
        (fun err => ret [SubIlp (ErrorToReject err)])
  | PNone => ret []
  end.

End Account.

(** * The rest of the account: funding, forwarded replies, the watcher *)

Section Lifecycle.

Variable master : EthereumPlugin.

(** The peer's answer to an [info] request made at a given time: the [info]
    sub-protocol of the response, a response without one, or a request that
    fails. *)
Variable infoResponse : nat -> Result (option Buffer).

(** [generateChannelId()]: the 32 random bytes drawn at a given time. *)
Variable generateChannelId : nat -> string.

(** Whether the peer answers a [requestClose] sent at a given time. *)
Variable closeAcknowledged : nat -> bool.

(** [await this.sendMessage(...)] where the answer matters: the message
    leaves, and the call fails when the peer does not answer.  [sendMessage]
    is a callback the plugin supplies, as the handlers are. *)
Definition awaitMessage (m : Message) (answered : bool) : M unit :=
  fun w =>
    let w' := set_sent (m :: sent w) w in
    if answered then (Ok tt, w') else (Throw HandlerError, w').

(** Modelled from the spec: [hasClaim] of [utils/channel] is not among the
    sources.  It holds of an existing channel that carries a claim (spec 4.5:
    "an existing outgoing claim"). *)
Definition hasClaim (c : option Channel) : bool :=
  match c with
  | Some c => bool_decide (is_Some (signature c))
  | None => false
  end.

Definition fetchEthereumAddress : M unit :=
  let* current := get (fun w => ethereumAddress (account w)) in
  match current with
  | Some _ => ret tt
  | None =>
      catch
        (let* response :=
           (fun w =>
              (infoResponse (clock w),
               set_sent (MsgInfo (_wallet_address master) :: sent w) w)) in
         match response with
         | Some info => linkEthereumAddress master info
         | None =>
             logAt Debug "Failed to link Ethereum address: BTP response did not include any 'info' subprotocol data"
         end)
        (fun err => logAt Debug "Failed to exchange Ethereum addresses")
  end.

(** [openChannel(value, authorize)] *)
Definition openChannel (amount : Z) (authorize : Z -> bool) : M (option Channel) :=
  fetchEthereumAddress;;
  let* address := get (fun w => ethereumAddress (account w)) in
  let linked :=
    match address with Some a => negb (eqs a "") | None => false end in
  if negb linked then
    logAt Debug "Failed to open channel: no Ethereum address is linked";;
    ret None
  else
  let peerAddress := match address with Some a => a | None => "" end in
  let* channelId := get (fun w => generateChannelId (clock w)) in
  let tx := TxOpen channelId peerAddress (_outgoingDisputePeriod master) amount in
  let txFee := _txFee master tx in
  (if authorize txFee then ret tt else throw AuthorizeRejected);;
  logAt Debug "Opening channel";;
  catch (queueTransaction master tx)
        (fun err => logAt Error "Failed to open channel:";; throw err);;
  let* newChannel :=
    refreshChannel (fetchChannel master channelId)
                   (fun c => bool_decide (is_Some c)) in
  match newChannel with
  | None => throw TypeError (* excluded by the type guard of the predicate *)
  | Some newChannel =>
      let signedChannel := signClaim master 0 newChannel in
      sendClaim signedChannel;;
      logAt Debug "Successfully opened channel";;
      ret (Some signedChannel)
  end.

(** [fundOutgoingChannel(value, authorize)]; [pending] as in
    [depositToChannel]. *)
Definition fundOutgoingChannel (amount : Z) (authorize : Z -> bool)
    (pending : list (option Z)) : M (option Channel) :=
  outgoingAdd (fun cachedChannel =>
    match cachedChannel with
    | Some cachedChannel =>
        depositToChannel master cachedChannel amount authorize pending
    | None => openChannel amount authorize
    end).


(** [handlePrepareResponse(prepare, reply)], for a PREPARE of the given
    amount. *)
Definition handlePrepareResponse (amount : Z) (reply : IlpReply) : M unit :=
  match reply with
  | Fulfill =>
      logAt Debug "Received a FULFILL in response to forwarded PREPARE: credited";;
      modify (with_account (fun a =>
        set_payableBalance (payableBalance a + amount) a));;
      catch (sendMoney master None)
            (fun err => logAt Debug "Error queueing outgoing settlement: ")
  | Reject code =>
      logAt Debug "Received a REJECT in response to the forwarded PREPARE";;
      let* outgoingChannel := get (fun w => outgoing (account w)) in
      if (eqs code "T04" && hasClaim outgoingChannel)%bool then
        match outgoingChannel with
        | Some c => sendClaim c
        | None => ret tt
        end
      else ret tt
  end.

(** One firing of the timer [startChannelWatcher] sets. *)
Definition channelWatcherTick : M unit :=
  let* cachedChannel := get (fun w => incoming (account w)) in
  match cachedChannel with
  | None => modify (set_watcher false)
  | Some cachedChannel =>
      let* updatedChannel := updateChannel master cachedChannel in
      let closedOrClosing :=
        match updatedChannel with
        | None => true
        | Some updated => isDisputed updated
        end in
      if closedOrClosing then
        catch (claimIfProfitable master true None;; ret tt)
              (fun err =>
                 logAt Debug "Error attempting to claim channel or confirm channel was closed")
      else ret tt
  end.

(** [requestClose()] *)
Definition requestClose : M (option Channel) :=
  outgoingAdd (fun cachedChannel =>
    match cachedChannel with
    | None => ret None
    | Some cached =>
        catch
          (let* answered := get (fun w => closeAcknowledged (clock w)) in
           awaitMessage MsgRequestClose answered;;
           let* updatedChannel :=
             refreshChannel (updateChannel master cached)
                            (fun c => negb (bool_decide (is_Some c))) in
           logAt Debug "Peer successfully closed our outgoing channel";;
           ret updatedChannel)
          (fun err =>
             logAt Debug "Error while requesting peer to claim channel:";;
             ret cachedChannel)
    end).

End Lifecycle.

(** * Properties *)

(** ** What a run leaves untouched *)

(** The parts of the world other than the clock and the log. *)
Definition sameState (w w' : World) : Prop :=
  account w' = account w /\ depositQueue w' = depositQueue w /\
  store w' = store w /\ moneyCalls w' = moneyCalls w /\ sent w' = sent w /\
  transactions w' = transactions w /\ watcher w' = watcher w /\
  autoFundRequests w' = autoFundRequests w.

Section ValidateClaim.

Variable master : EthereumPlugin.
Variable moneyHandler : Z -> bool.

(** The checks of [validateClaim] that come before the uniqueness step, for
    the channel snapshot [u] the claim was checked against. *)
Definition passedChecks (claim : Claim.t) (cached : option Channel)
    (w : World) (u : Channel) : Prop :=
  (cached = Some u \/
   exists t, (clock w <= t)%nat /\ channelAt master t (Claim.channelId claim) = Some u) /\
  0 <= Claim.value claim <= value u /\
  _isValidClaimSignature master claim u = true /\
  toLowerCase (Claim.contractAddress claim) = toLowerCase (_contract_address master) /\
  match cached with
  | Some c => Claim.channelId claim = channelId c
  | None =>
      toLowerCase (receiver u) = toLowerCase (_wallet_address master) /\
      _minIncomingDisputePeriod master <= disputePeriod u
  end.

(** [min(claim.value, channel.value) - (cached.spent || 0)] *)
Definition claimIncrement (claim : Claim.t) (cached : option Channel) (u : Channel) : Z :=
  Z.min (Claim.value claim) (value u)
  - match cached with Some c => spent c | None => 0 end.

(** The ways a call of [validateClaim] ends. *)
Inductive ValidateOutcome (claim : Claim.t) (cached : option Channel) (w : World)
  : Result (option Channel) -> World -> Prop :=
| VRejected lvl msg w' :
    sameState w w' ->
    log w' = (lvl, msg) :: log w ->
    lvl = Debug \/
    (lvl = Error /\
     (msg = "Invalid claim: value is negative" \/
      msg = "Invalid claim: channel is unexpectedly closed")) ->
    msg <> "Accepted incoming claim" ->
    msg <> "Invalid claim: channel is already linked to a different account" ->
    ValidateOutcome claim cached w (Ok cached) w'
| VAlreadyLinked u other w' :
    cached = None ->
    passedChecks claim cached w u ->
    store w !! channelKey (Claim.channelId claim) = Some other ->
    sameState w w' ->
    log w' = (Debug, "Invalid claim: channel is already linked to a different account") :: log w ->
    ValidateOutcome claim cached w (Ok cached) w'
| VAccepted u w' :
    passedChecks claim cached w u ->
    (if bool_decide (is_Some cached) then 0 < claimIncrement claim cached u
     else 0 <= claimIncrement claim cached u) ->
    (if bool_decide (is_Some cached) then store w' = store w
     else store w !! channelKey (Claim.channelId claim) = None /\
          store w' = <[channelKey (Claim.channelId claim) := accountName (account w)]> (store w)) ->
    (if 0 <? claimIncrement claim cached u then
       account w' = set_receivableBalance
                      (receivableBalance (account w)
                       - weiToGweiDown (claimIncrement claim cached u)) (account w) /\
       moneyCalls w' = weiToGweiDown (claimIncrement claim cached u) :: moneyCalls w /\
       moneyHandler (weiToGweiDown (claimIncrement claim cached u)) = true
     else account w' = account w /\ moneyCalls w' = moneyCalls w) ->
    watcher w' = true ->
    depositQueue w' = depositQueue w -> sent w' = sent w ->
    transactions w' = transactions w ->
    autoFundRequests w' = autoFundRequests w ->
    ValidateOutcome claim cached w (Ok (Some (acceptedChannel claim u))) w'
| VHandlerFailed u w' :
    passedChecks claim cached w u ->
    0 < claimIncrement claim cached u ->
    (if bool_decide (is_Some cached) then store w' = store w
     else store w !! channelKey (Claim.channelId claim) = None /\
          store w' = <[channelKey (Claim.channelId claim) := accountName (account w)]> (store w)) ->
    moneyHandler (weiToGweiDown (claimIncrement claim cached u)) = false ->
    account w' = set_receivableBalance
                   (receivableBalance (account w)
                    - weiToGweiDown (claimIncrement claim cached u)) (account w) ->
    moneyCalls w' = weiToGweiDown (claimIncrement claim cached u) :: moneyCalls w ->
    ValidateOutcome claim cached w (Throw HandlerError) w'.

End ValidateClaim.

(** [w1] is [w] at a later time. *)
Definition laterThan (w w1 : World) : Prop :=
  (clock w <= clock w1)%nat /\ log w1 = log w /\ sameState w w1.

(** ** Sequences of claims *)

(** The [machinomy] message that carries a claim. *)
Definition claimMessage (claim : Claim.t) : BtpPacket :=
  PMachinomy (BufJson (JObject None (Some (Claim.value claim))
                         (Some (Claim.channelId claim))
                         (Some (Claim.signature claim))
                         (Some (Claim.contractAddress claim)))).

(** The value of the incoming queue after each of a sequence of claim
    messages has been handled. *)
Fixpoint committedStates (master : EthereumPlugin) (moneyHandler : Z -> bool)
    (dataHandler : Z -> AccountData -> Result IlpReply * AccountData)
    (claims : list Claim.t) (w : World) : list (option Channel) :=
  match claims with
  | [] => []
  | claim :: rest =>
      let w' := snd (handleData master moneyHandler dataHandler (claimMessage claim) w) in
      incoming (account w')
      :: committedStates master moneyHandler dataHandler rest w'
  end.

(** A committed state either repeats the previous one or carries a strictly
    greater [spent]. *)
Definition advances (c c' : Channel) : Prop := c' = c \/ spent c < spent c'.

(** ** The deposit side-queue *)

(** The value of the deposit side-queue. *)
Definition sideState (w : World) : option Channel :=
  match depositQueue w with Some s => s | None => None end.

(** What [depositToChannel] does with its side-queue before it clears it:
    it seeds the queue and adds a claim, and the concurrent [sendMoney] calls
    add theirs. *)
Definition depositSideQueue (master : EthereumPlugin) (channel : Channel)
    (pending : list (option Z)) : M unit :=
  modify (set_depositQueue (Some (Some channel)));;
  catch (depositQueueAdd (createClaim master);; ret tt)
        (fun _ => logAt Error "Error queuing task to create new claim:");;
  concurrently master pending.

(** The on-chain part of [depositToChannel]: authorise, submit, and wait for
    the chain to show the new value. *)
Definition depositAttempt (master : EthereumPlugin) (channel : Channel)
    (deposit : Z) (authorize : Z -> bool) : M (option Channel) :=
  let tx := TxDeposit (channelId channel) deposit in
  (if authorize (_txFee master tx) then ret tt else throw AuthorizeRejected);;
  logAt Debug "Depositing to channel";;
  queueTransaction master tx;;
  refreshChannel (updateChannel master channel)
    (fun updatedChannel =>
       match updatedChannel with
       | Some c => value c =? value channel + deposit
       | None => false
       end).

(** The merge on success: the chain's view of the channel with the
    side-queue's claim. *)
Definition mergeDeposit (updated forked : Channel) : Channel :=
  mkChannel (channelId updated) (contractAddress updated) (sender updated)
    (receiver updated) (value updated) (disputePeriod updated)
    (disputedUntil updated) (spent forked) (signature forked).

(** A side-queue state that descends from [channel] by signing claims. *)
Definition descends (channel forked : Channel) : Prop :=
  channelId forked = channelId channel /\
  contractAddress forked = contractAddress channel /\
  value forked = value channel /\ spent channel <= spent forked.

(** ** Claim payloads *)



(** ** A concrete deployment

    One plugin, one peer, one channel on-chain; used to run the model. *)
Module Scenario.

Definition wallet : string := "0xAa01".
Definition peer : string := "0xBb02".
Definition contract : string := "0xCc03".

(** The peer's channel to us, ["0x01"]: 5 gwei deposited, dispute period
    100.  Our channel to the peer, ["0x02"], as it is after a deposit of
    1 gwei on top of 5. *)
Definition channels (time : nat) (id : string) : option OnChain :=
  if eqs id "0x01" then Some (mkOnChain peer "0xaa01" 5000000000 100 None)
  else if eqs id "0x02" then Some (mkOnChain wallet peer 6000000000 20 None)
  else None.

(** Claims signed ["0xsig"] verify. *)
Definition master : EthereumPlugin :=
  mkPlugin wallet contract
    1000 5000 10 20 2000000000 1000000000
    channels
    (fun claim _ => eqs (Claim.signature claim) "0xsig")
    (fun _ _ _ => "0xsig")
    (fun _ => 100)
    (fun _ _ => true)
    (fun _ => true)
    (fun _ => true).

Definition moneyHandler (amount : Z) : bool := true.
Definition dataHandler (amount : Z) (a : AccountData)
  : Result IlpReply * AccountData := (Ok Fulfill, a).
Definition rejectingHandler (amount : Z) (a : AccountData)
  : Result IlpReply * AccountData := (Ok (Reject "F99"), a).

Definition alice : AccountData := mkAccount "alice" 0 0 0 None None None.

Definition world : World := mkWorld alice None ∅ 0 [] [] [] [] false 0.

Definition claimOf (amount : Z) : Claim.t := Claim.mk "0x01" "0xsig" amount "0xcc03".

(** The incoming channel after a claim for 2 gwei was accepted. *)
Definition linked : Channel :=
  mkChannel "0x01" "0xcc03" peer "0xaa01" 5000000000 100 None
            2000000000 (Some "0xsig").

Definition receiving : World := with_account (set_incoming (Some linked)) world.

(** The registry already names this very account for the channel. *)
Definition boundToSelf : World :=
  set_store (<[channelKey "0x01" := "alice"]> ∅) world.

(** Our channel to the peer, 2 of its 5 gwei spent, and 7 gwei owed. *)
Definition outgoingChannel : Channel :=
  mkChannel "0x02" contract wallet peer 5000000000 20 None
            2000000000 (Some "0xsig").
Definition owing : World :=
  with_account (fun a => set_outgoing (Some outgoingChannel)
                           (set_payoutAmount 7 (set_payableBalance 7 a))) world.

End Scenario.

(** ** Channels and accounts across a run *)

(** [cached.spent || 0] *)
Definition spentOrZero (cached : option Channel) : Z :=
  match cached with Some c => spent c | None => 0 end.

(** The claim of a channel is covered by what the channel holds. *)
Definition solvent (c : Channel) : Prop := 0 <= spent c <= value c.

(** [c'] is [c] with a value that did not decrease. *)
Definition toppedUp (c c' : Channel) : Prop :=
  channelId c' = channelId c /\ contractAddress c' = contractAddress c /\
  sender c' = sender c /\ receiver c' = receiver c /\
  disputePeriod c' = disputePeriod c /\ disputedUntil c' = disputedUntil c /\
  spent c' = spent c /\ signature c' = signature c /\
  value c <= value c'.

(** [c'] carries the claim of [c], for the same channel. *)
Definition sameClaim (c c' : Channel) : Prop :=
  channelId c' = channelId c /\ contractAddress c' = contractAddress c /\
  spent c' = spent c /\ signature c' = signature c.

(** Two accounts that differ at most in the linked address. *)
Definition sameButAddress (a a' : AccountData) : Prop :=
  accountName a' = accountName a /\
  receivableBalance a' = receivableBalance a /\
  payableBalance a' = payableBalance a /\
  payoutAmount a' = payoutAmount a /\
  incoming a' = incoming a /\ outgoing a' = outgoing a.

(** Two accounts that differ at most in the incoming channel. *)
Definition sameButIncoming (a a' : AccountData) : Prop :=
  accountName a' = accountName a /\
  receivableBalance a' = receivableBalance a /\
  payableBalance a' = payableBalance a /\
  payoutAmount a' = payoutAmount a /\
  ethereumAddress a' = ethereumAddress a /\ outgoing a' = outgoing a.

(** Two accounts that differ at most in the outgoing channel. *)
Definition sameButOutgoing (a a' : AccountData) : Prop :=
  accountName a' = accountName a /\
  receivableBalance a' = receivableBalance a /\
  payableBalance a' = payableBalance a /\
  payoutAmount a' = payoutAmount a /\
  ethereumAddress a' = ethereumAddress a /\ incoming a' = incoming a.

(** What settling leaves alone: everything but the payable balance, the
    payout amount, the channel cells, the messages sent, the log and the
    count of auto-fund requests. *)
Definition settlementFrame (w w' : World) : Prop :=
  accountName (account w') = accountName (account w) /\
  receivableBalance (account w') = receivableBalance (account w) /\
  ethereumAddress (account w') = ethereumAddress (account w) /\
  incoming (account w') = incoming (account w) /\
  store w' = store w /\ clock w' = clock w /\ moneyCalls w' = moneyCalls w /\
  transactions w' = transactions w /\ watcher w' = watcher w.

(** The cached channel [c] as [updateChannel] shows it at a given time. *)
Definition refreshedAt (master : EthereumPlugin) (c : Channel) (time : nat)
  : option Channel :=
  match channelAt master time (channelId c) with
  | Some u => Some (mkChannel (channelId c) (contractAddress c) (sender u)
                      (receiver u) (value u) (disputePeriod u)
                      (disputedUntil u) (spent c) (signature c))
  | None => None
  end.

(** [n] forwarded packets of the same amount, each fulfilled. *)
Fixpoint fulfilledPackets (master : EthereumPlugin) (n : nat) (amount : Z) : M unit :=
  match n with
  | O => ret tt
  | S n' => handlePrepareResponse master amount Fulfill;;
            fulfilledPackets master n' amount
  end.

(** ** A deployment whose chain changes

    The deployment of [Scenario], with a chain that moves: the peer tops the
    incoming channel ["0x01"] up from 5 to 8 gwei, which shows from time 4
    on; a channel ["0x03"] opened to the peer shows from time 2 on; the
    outgoing channel ["0x02"] is closed from time 3 on. *)
Module Timeline.

Definition channels (time : nat) (id : string) : option OnChain :=
  if eqs id "0x01" then
    Some (mkOnChain Scenario.peer "0xaa01"
            (if (time <? 4)%nat then 5000000000 else 8000000000) 100 None)
  else if eqs id "0x02" then
    if (time <? 3)%nat
    then Some (mkOnChain Scenario.wallet Scenario.peer 5000000000 20 None)
    else None
  else if eqs id "0x03" then
    if (time <? 2)%nat then None
    else Some (mkOnChain Scenario.wallet Scenario.peer 2000000000 20 None)
  else None.

Definition master : EthereumPlugin :=
  mkPlugin Scenario.wallet Scenario.contract
    1000 5000 10 20 2000000000 1000000000
    channels
    (fun claim _ => eqs (Claim.signature claim) "0xsig")
    (fun _ _ _ => "0xsig")
    (fun _ => 100)
    (fun _ _ => true)
    (fun _ => true)
    (fun _ => true).

(** The peer answers an [info] request with its address. *)
Definition infoResponse (time : nat) : Result (option Buffer) :=
  Ok (Some (BufJson (JObject (Some Scenario.peer) None None None None))).

Definition generateChannelId (time : nat) : string := "0x03".

Definition closeAcknowledged (time : nat) : bool := true.

End Timeline.

(** ** A deployment whose node is down

    The deployment of [Scenario], except that awaiting the contract handle
    and the gas price rejects. *)
Module Outage.

Definition master : EthereumPlugin :=
  mkPlugin (_wallet_address Scenario.master) (_contract_address Scenario.master)
    (_maxPacketAmount Scenario.master) (_maxBalance Scenario.master)
    (_minIncomingDisputePeriod Scenario.master)
    (_outgoingDisputePeriod Scenario.master)
    (_outgoingChannelAmount Scenario.master)
    (_minIncomingChannelAmount Scenario.master)
    (_channels Scenario.master) (_isValidClaimSignature Scenario.master)
    (_sign Scenario.master) (_txFee Scenario.master)
    (_txConfirms Scenario.master) (_isAddress Scenario.master)
    (fun _ => false).

(** Our channel to the peer with 2 of its 5 gwei spent; 7 gwei are owed, 1 of
    them queued for payout. *)
Definition world : World :=
  with_account (set_payoutAmount 1) Scenario.owing.

End Outage.

(** * Proofs *)

(** ** Running the monad *)

Ltac bool_facts :=
  repeat match goal with
  | H : negb _ = true |- _ => apply negb_true_iff in H
  | H : negb _ = false |- _ => apply negb_false_iff in H
  | H : andb _ _ = true |- _ => apply andb_true_iff in H; destruct H
  | H : eqs _ _ = true |- _ => apply bool_decide_eq_true in H
  | H : eqs _ _ = false |- _ => apply bool_decide_eq_false in H
  | H : (_ <? _) = true |- _ => apply Z.ltb_lt in H
  | H : (_ <? _) = false |- _ => apply Z.ltb_ge in H
  | H : (_ <=? _) = true |- _ => apply Z.leb_le in H
  | H : (_ <=? _) = false |- _ => apply Z.leb_gt in H
  | H : (_ =? _) = true |- _ => apply Z.eqb_eq in H
  | H : (_ =? _) = false |- _ => apply Z.eqb_neq in H
  end.

(** Split the run recorded in [H] at its next test, innermost first. *)
Ltac split_run H :=
  cbn beta iota in H;
  match type of H with
  | context [match ?x with _ => _ end] =>
      lazymatch x with
      | context [match _ with _ => _ end] => fail
      | _ => destruct x eqn:?
      end
  end; cbn beta iota in H.

(** The same for a run in the goal. *)
Ltac split_goal :=
  cbn beta iota;
  match goal with
  | |- context [match ?x with _ => _ end] =>
      lazymatch x with
      | context [match _ with _ => _ end] => fail
      | _ => destruct x eqn:?
      end
  end; cbn beta iota.

(** The end of a run: [H : (result, world) = (r, w')]. *)
Ltac end_run H := injection H as <- <-.

Lemma sameState_refl w : sameState w w.
Proof. repeat split. Qed.

Section ValidateClaimProofs.

Variable master : EthereumPlugin.
Variable moneyHandler : Z -> bool.
Variable dataHandler : Z -> AccountData -> Result IlpReply * AccountData.

Abbreviation validateClaimFrom := (validateClaimFrom master moneyHandler).
Abbreviation validateClaim := (validateClaim master moneyHandler).
Abbreviation ValidateOutcome := (ValidateOutcome master moneyHandler).

Lemma passedChecks_later claim cached w w1 u :
  (clock w <= clock w1)%nat ->
  passedChecks master claim cached w1 u -> passedChecks master claim cached w u.
Proof.
  intros Hle (Hprov & Hrest). split; [|exact Hrest].
  destruct Hprov as [->|(t & Ht & Hu)]; [now left|].
  right. exists t. split; [lia|exact Hu].
Qed.

Lemma sameState_trans w1 w2 w3 :
  sameState w1 w2 -> sameState w2 w3 -> sameState w1 w3.
Proof. unfold sameState. intuition congruence. Qed.

Lemma ValidateOutcome_later claim cached w w1 r w' :
  laterThan w w1 ->
  ValidateOutcome claim cached w1 r w' -> ValidateOutcome claim cached w r w'.
Proof.
  intros (Hclock & Hlog & Hsame) Hout.
  pose proof Hsame as (Hacc & Hdq & Hst & Hmc & Hsent & Htx & Hwa & Haf).
  destruct Hout.
  - eapply VRejected; eauto using sameState_trans. congruence.
  - eapply VAlreadyLinked; eauto using passedChecks_later, sameState_trans.
    + rewrite <- Hst. eassumption.
    + congruence.
  - eapply VAccepted; eauto using passedChecks_later; try congruence.
    + destruct (bool_decide (is_Some cached)); [congruence|].
      rewrite <- Hst, <- Hacc. assumption.
    + destruct (0 <? claimIncrement claim cached u); rewrite <- Hacc, <- Hmc; assumption.
  - eapply VHandlerFailed; eauto using passedChecks_later; try congruence.
    destruct (bool_decide (is_Some cached)); [congruence|].
    rewrite <- Hst, <- Hacc. assumption.
Qed.

Ltac rejected :=
  eapply VRejected;
  [ repeat split | reflexivity
  | first [left; reflexivity | right; split; [reflexivity|]; auto]
  | discriminate | discriminate ].

Ltac checks :=
  unfold passedChecks; bool_facts; repeat split; eauto; try lia;
  try solve [left; congruence | right; eexists; split; [|eassumption]; cbn; lia].

Ltac increment :=
  unfold claimIncrement; cbn;
  repeat match goal with H : (0 <? _) = _ |- _ => rewrite H end;
  bool_facts; repeat split; eauto; try lia.

Ltac accepted := eapply VAccepted; [checks | increment ..]; reflexivity.
Ltac handler_failed := eapply VHandlerFailed; [checks | increment ..]; reflexivity.
Ltac already_linked :=
  eapply VAlreadyLinked; [reflexivity | checks | eassumption | repeat split | reflexivity].

Lemma validateClaimFrom_outcome retries claim cached w r w' :
  validateClaimFrom retries claim cached w = (r, w') ->
  ValidateOutcome claim cached w r w'.
Proof.
  revert w. induction retries as [|n IH]; intros w H.
  - cbn [validateClaimFrom] in H.
    unfold bind, ret, fetchChannel, logAt, delay, modify, get, callMoneyHandler in H.
    repeat split_run H; end_run H; try rejected;
      try solve [exfalso; cbn in *; bool_facts; discriminate];
      first [accepted | handler_failed | already_linked].
  - cbn [validateClaimFrom] in H.
    unfold bind, ret, fetchChannel, logAt, delay, modify, get, callMoneyHandler in H.
    repeat split_run H;
      try (apply IH in H; eapply ValidateOutcome_later; [|exact H];
           repeat split; cbn; lia);
      end_run H; try rejected;
      try solve [exfalso; cbn in *; bool_facts; discriminate];
      first [accepted | handler_failed | already_linked].
Qed.

Lemma validateClaim_outcome claim cached w r w' :
  validateClaim claim cached w = (r, w') ->
  ValidateOutcome claim cached w r w'.
Proof. apply validateClaimFrom_outcome. Qed.

(** With a cached claim, the reducer returns the prior state, or a state
    that the claim's positive increment advanced, or it throws because the
    money handler did. *)
Lemma validateClaim_cached claim c w :
  match validateClaim claim (Some c) w with
  | (Ok s, w') =>
      (s = Some c /\ sameState w w') \/
      (exists u, s = Some (acceptedChannel claim u) /\
                 0 < Z.min (Claim.value claim) (value u) - spent c /\
                 spent c < spent (acceptedChannel claim u))
  | (Throw e, w') =>
      incoming (account w') = incoming (account w) /\
      exists u, 0 < Z.min (Claim.value claim) (value u) - spent c
  end.
Proof.
  destruct (validateClaim claim (Some c) w) as [r1 w1] eqn:Hrun.
  apply validateClaim_outcome in Hrun.
  inversion Hrun as
    [ lvl msg w2 Hs Hl Hlv Hm1 Hm2
    | u other w2 Hn Hp Hst Hs Hl
    | u w2 Hp Hinc Hstore Hcredit Hwatch Hdq Hsent Htx Haf
    | u w2 Hp Hinc Hstore Hmh Hacc Hmc ]; subst.
  - left. split; [reflexivity | exact Hs].
  - discriminate.
  - right. exists u. split; [reflexivity|].
    destruct Hp as (_ & Hv & _). revert Hinc.
    unfold claimIncrement, acceptedChannel.
    cbn [bool_decide decide_rel is_Some_dec spent]. lia.
  - split; [rewrite Hacc; reflexivity|]. exists u. exact Hinc.
Qed.

Lemma validateClaim_advances claim c w :
  match validateClaim claim (Some c) w with
  | (Ok s, w') => exists c', s = Some c' /\ advances c c'
  | (Throw e, w') => incoming (account w') = incoming (account w)
  end.
Proof.
  pose proof (validateClaim_cached claim c w) as H.
  destruct (validateClaim claim (Some c) w) as [[s|e] w1].
  - destruct H as [[-> _]|(u & -> & _ & Hlt)].
    + exists c. split; [reflexivity | now left].
    + eexists. split; [reflexivity | now right].
  - apply H.
Qed.

(** One claim message: the incoming cell stays put or advances. *)
Lemma handleData_claim_advances claim c w :
  incoming (account w) = Some c ->
  exists c',
    incoming (account (snd (handleData master moneyHandler dataHandler
                              (claimMessage claim) w))) = Some c'
    /\ advances c c'.
Proof.
  intros Hc.
  unfold handleData, claimMessage, JSON_parse, bind, catch, ret, logAt,
    autoFundOutgoingChannel, incomingAdd, queueAdd, modify.
  cbn beta iota. cbn [account set_log incoming]. rewrite Hc.
  pose proof (validateClaim_advances
     (Claim.mk (Claim.channelId claim) (Claim.signature claim)
               (Claim.value claim) (Claim.contractAddress claim))
     c (set_log ((Debug, "Handling Machinomy claim") :: log w) w)) as Hadv.
  destruct (validateClaim _ _ _) as [[s|e] w1].
  - destruct Hadv as (c' & -> & Hadv). exists c'. split; [reflexivity|exact Hadv].
  - exists c. split; [|now left]. cbn. rewrite Hadv. exact Hc.
Qed.

Lemma committedStates_sorted claims : forall c w,
  incoming (account w) = Some c ->
  exists cs,
    committedStates master moneyHandler dataHandler claims w = map Some cs
    /\ Sorted advances (c :: cs).
Proof.
  induction claims as [|claim rest IH]; intros c w Hc.
  - exists []. split; [reflexivity|]. repeat constructor.
  - cbn [committedStates].
    destruct (handleData_claim_advances claim c w Hc) as (c' & Hc' & Hadv).
    destruct (IH c' _ Hc') as (cs & Hcs & Hsorted).
    exists (c' :: cs). split.
    + cbn [map]. rewrite Hc', Hcs. reflexivity.
    + constructor; [exact Hsorted | constructor; exact Hadv].
Qed.

(** C1.  When a claim is cached, [validateClaim] commits the new claim only
    if [min(claim.value, channel.value) - cached.spent] is strictly positive,
    and otherwise returns the unchanged prior state (a reducer that throws
    commits nothing).  Consequently, along any sequence of claim messages the
    committed [spent] never decreases, and it strictly increases whenever the
    committed state changes. *)
Theorem validateClaim_commits_only_best_claims (c : Channel) (w : World) :
  (forall claim,
     match validateClaim claim (Some c) w with
     | (Ok s, w') =>
         (s = Some c /\ sameState w w') \/
         (exists u, s = Some (acceptedChannel claim u) /\
                    0 < Z.min (Claim.value claim) (value u) - spent c /\
                    spent c < spent (acceptedChannel claim u))
     | (Throw e, w') =>
         incoming (account w') = incoming (account w) /\
         exists u, 0 < Z.min (Claim.value claim) (value u) - spent c
     end) /\
  (forall claims, exists cs,
     committedStates master moneyHandler dataHandler claims
       (with_account (set_incoming (Some c)) w) = map Some cs /\
     Sorted advances (c :: cs)).
Proof.
  split.
  - intros claim. apply validateClaim_cached.
  - intros claims. apply committedStates_sorted. reflexivity.
Qed.

(** C10.  An acceptance whose increment is zero happens only for a claim of
    value zero on a new channel; it does not call the money handler and
    leaves every balance as it was, and the state it commits has [spent = 0]
    and the claim's signature. *)
Theorem validateClaim_zero_increment claim cached w s w' :
  validateClaim claim cached w = (Ok s, w') ->
  s <> cached ->
  exists u,
    s = Some (acceptedChannel claim u) /\
    (claimIncrement claim cached u = 0 ->
     cached = None /\ Claim.value claim = 0 /\
     moneyCalls w' = moneyCalls w /\ account w' = account w /\
     spent (acceptedChannel claim u) = 0 /\
     signature (acceptedChannel claim u) = Some (Claim.signature claim)).
Proof.
  intros Hrun Hnew. apply validateClaim_outcome in Hrun.
  inversion Hrun as
    [ lvl msg w2 Hs Hl Hlv Hm1 Hm2
    | u other w2 Hn Hp Hst Hs Hl
    | u w2 Hp Hinc Hstore Hcredit Hwatch Hdq Hsent Htx Haf
    | ]; subst; try congruence.
  exists u. split; [reflexivity|]. intros Hzero.
  rewrite Hzero in Hcredit, Hinc. cbn [Z.ltb Z.compare] in Hcredit.
  destruct Hcredit as [Hacc Hmc].
  destruct cached as [c|].
  - cbn [bool_decide decide_rel is_Some_dec] in Hinc. lia.
  - destruct Hp as (_ & Hv & _). unfold claimIncrement in Hzero.
    unfold acceptedChannel. cbn [spent signature].
    repeat split; try assumption; lia.
Qed.

End ValidateClaimProofs.

(** In the scenario 2 gwei are claimed already.  Claims for 2, 3 and 1 gwei
    arrive in this order: only the second advances the committed state. *)
Lemma validateClaim_commits_only_best_claims_witness :
  (exists cs,
     committedStates Scenario.master Scenario.moneyHandler Scenario.dataHandler
       [Scenario.claimOf 2000000000; Scenario.claimOf 3000000000;
        Scenario.claimOf 1000000000] Scenario.receiving = map Some cs /\
     Sorted advances (Scenario.linked :: cs)) /\
  map (option_map spent)
    (committedStates Scenario.master Scenario.moneyHandler Scenario.dataHandler
       [Scenario.claimOf 2000000000; Scenario.claimOf 3000000000;
        Scenario.claimOf 1000000000] Scenario.receiving)
  = [Some 2000000000; Some 3000000000; Some 3000000000].
Proof.
  split.
  - apply (validateClaim_commits_only_best_claims Scenario.master
             Scenario.moneyHandler Scenario.dataHandler Scenario.linked
             Scenario.world).
  - vm_compute. reflexivity.
Defined.

(** A zero-value claim on the new channel of the scenario is accepted. *)
Lemma validateClaim_zero_increment_witness :
  exists u,
    fst (validateClaim Scenario.master Scenario.moneyHandler
           (Scenario.claimOf 0) None Scenario.world)
    = Ok (Some (acceptedChannel (Scenario.claimOf 0) u)) /\
    (claimIncrement (Scenario.claimOf 0) None u = 0 ->
     moneyCalls (snd (validateClaim Scenario.master Scenario.moneyHandler
                        (Scenario.claimOf 0) None Scenario.world)) = []).
Proof.
  destruct (validateClaim_zero_increment Scenario.master Scenario.moneyHandler
              (Scenario.claimOf 0) None Scenario.world
              (Some (acceptedChannel (Scenario.claimOf 0) Scenario.linked))
              (snd (validateClaim Scenario.master Scenario.moneyHandler
                      (Scenario.claimOf 0) None Scenario.world)))
    as (u & Hs & Hzero).
  - vm_compute. reflexivity.
  - discriminate.
  - exists u. split.
    + rewrite <- Hs. vm_compute. reflexivity.
    + intros Hz. apply Hzero in Hz. apply Hz.
Defined.

(** When [validateClaim] accepts the first claim of a channel, the registry
    had no entry for the channel and now maps it to this account. *)
Theorem validateClaim_binds_new_channel master moneyHandler claim w c w' :
  validateClaim master moneyHandler claim None w = (Ok (Some c), w') ->
  store w !! channelKey (Claim.channelId claim) = None /\
  store w' !! channelKey (Claim.channelId claim) = Some (accountName (account w)).
Proof.
  intros Hrun. apply validateClaim_outcome in Hrun.
  inversion Hrun as
    [ | | u w2 Hp Hinc Hstore Hcredit Hwatch Hdq Hsent Htx Haf | ]; subst.
  cbn [bool_decide decide_rel is_Some_dec] in Hstore.
  destruct Hstore as [Hfree ->]. split; [exact Hfree|].
  apply lookup_insert_eq.
Qed.

Lemma validateClaim_binds_new_channel_witness :
  store (snd (validateClaim Scenario.master Scenario.moneyHandler
                (Scenario.claimOf 2000000000) None Scenario.world))
  !! channelKey "0x01" = Some "alice".
Proof.
  apply (validateClaim_binds_new_channel Scenario.master Scenario.moneyHandler
           (Scenario.claimOf 2000000000) Scenario.world Scenario.linked).
  vm_compute. reflexivity.
Defined.

(** C3 (at the input where the code departs from the claim).  The registry
    maps the channel to this very account, ["alice"], whose incoming queue is
    empty; the claim is valid and would be accepted were the registry empty.
    [validateClaim] rejects it and logs that the channel is linked to a
    different account.  The state is reached when the money handler throws on
    the first claim of a channel: the binding is written, the claim is not
    committed. *)
Theorem validateClaim_rejects_channel_bound_to_own_account :
  store Scenario.boundToSelf !! channelKey "0x01"
  = Some (accountName (account Scenario.boundToSelf)) /\
  validateClaim Scenario.master Scenario.moneyHandler
    (Scenario.claimOf 2000000000) None Scenario.boundToSelf
  = (Ok None,
     set_log [(Debug, "Invalid claim: channel is already linked to a different account")]
       (set_clock 1 Scenario.boundToSelf)) /\
  fst (validateClaim Scenario.master Scenario.moneyHandler
         (Scenario.claimOf 2000000000) None Scenario.world)
  = Ok (Some Scenario.linked) /\
  (let w1 := snd (incomingAdd
                    (validateClaim Scenario.master (fun _ => false)
                       (Scenario.claimOf 2000000000)) Scenario.world) in
   incoming (account w1) = None /\
   store w1 !! channelKey "0x01" = Some "alice").
Proof.
  repeat split; vm_compute; reflexivity.
Qed.

(** ** createClaim *)

Section CreateClaimProofs.

Variable master : EthereumPlugin.

Ltac run_createClaim :=
  unfold createClaim, autoFundOutgoingChannel, sendClaim, sendMessage,
    bind, ret, get, logAt, modify;
  cbn beta iota; cbn [account set_autoFundRequests payoutAmount].

Lemma createClaim_idle cached w :
  gweiToWei (payoutAmount (account w)) <= 0 \/ cached = None \/
  (exists c, cached = Some c /\ remainingInChannel c <= 0) ->
  fst (createClaim master cached w) = Ok cached /\
  account (snd (createClaim master cached w)) = account w /\
  sent (snd (createClaim master cached w)) = sent w.
Proof.
  intros H. run_createClaim.
  repeat split_goal; bool_facts; cbn; auto.
  destruct H as [H | [H | (c' & [= <-] & H)]]; try lia; try discriminate.
Qed.

Lemma createClaim_claims c w :
  0 < gweiToWei (payoutAmount (account w)) ->
  0 < remainingInChannel c ->
  let i := Z.min (remainingInChannel c) (gweiToWei (payoutAmount (account w))) in
  let w' := snd (createClaim master (Some c) w) in
  fst (createClaim master (Some c) w) = Ok (Some (signClaim master (spent c + i) c)) /\
  account w' =
    set_payoutAmount (Z.min 0 (payoutAmount (account w) - weiToGweiDown i))
      (set_payableBalance (payableBalance (account w) - weiToGweiDown i)
         (account w)) /\
  sent w' =
    MsgMachinomy (channelId c)
      (Some (_sign master (contractAddress c) (channelId c) (spent c + i)))
      (spent c + i) (contractAddress c) :: sent w.
Proof.
  intros Hb Hr i w'. subst i w'. run_createClaim.
  repeat split_goal; bool_facts; try lia.
  cbn. auto.
Qed.

(** C2.  When [createClaim] produces a new claim, its increment [i] (wei) is
    positive, [payableBalance] decreases by exactly [i] converted to gwei
    rounded down, and [payoutAmount] becomes
    [min(0, payoutAmount - i_gwei)], which is never positive. *)
Theorem createClaim_settles_balances c w :
  0 < gweiToWei (payoutAmount (account w)) ->
  0 < remainingInChannel c ->
  let i := Z.min (remainingInChannel c) (gweiToWei (payoutAmount (account w))) in
  let w' := snd (createClaim master (Some c) w) in
  0 < i /\
  weiToGweiDown i = i / GWEI /\
  payableBalance (account w') = payableBalance (account w) - i / GWEI /\
  payoutAmount (account w') = Z.min 0 (payoutAmount (account w) - i / GWEI) /\
  payoutAmount (account w') <= 0 /\
  receivableBalance (account w') = receivableBalance (account w).
Proof.
  intros Hb Hr i w'.
  destruct (createClaim_claims c w Hb Hr) as (_ & Hacc & _).
  fold i in Hacc. fold w' in Hacc.
  assert (Hi : 0 < i) by (subst i; lia).
  assert (Hq : weiToGweiDown i = i / GWEI).
  { unfold weiToGweiDown. apply Z.quot_div_nonneg; [lia | reflexivity]. }
  rewrite Hacc, Hq. cbn [payableBalance payoutAmount receivableBalance
                         set_payoutAmount set_payableBalance].
  repeat split; try assumption; lia.
Qed.

(** C6.  [createClaim] returns the prior state, and sends nothing, when the
    payout converted to wei is not positive, or there is no channel, or the
    channel has no remaining capacity; otherwise the new [spent] is the old
    one plus [min(budget, remaining)].  Hence [spent] never decreases and,
    where it was within the channel's value, stays within it. *)
Theorem createClaim_spent cached w :
  let budget := gweiToWei (payoutAmount (account w)) in
  let r := fst (createClaim master cached w) in
  let w' := snd (createClaim master cached w) in
  (budget <= 0 \/ cached = None \/
   (exists c, cached = Some c /\ value c - spent c <= 0) ->
   r = Ok cached /\ account w' = account w /\ sent w' = sent w) /\
  (forall c, cached = Some c -> 0 < budget -> 0 < value c - spent c ->
   exists c', r = Ok (Some c') /\
     spent c' = spent c + Z.min budget (value c - spent c) /\
     value c' = value c /\ channelId c' = channelId c) /\
  (forall c, cached = Some c ->
   exists c', r = Ok (Some c') /\ spent c <= spent c' /\
     (spent c <= value c -> spent c' <= value c)).
Proof.
  intros budget r w'. subst budget r w'. split; [|split].
  - intros H. apply createClaim_idle. exact H.
  - intros c -> Hb Hr.
    destruct (createClaim_claims c w Hb Hr) as (Hres & _).
    eexists. split; [exact Hres|].
    unfold signClaim, remainingInChannel, spentFromChannel.
    cbn [spent value channelId]. repeat split; lia.
  - intros c ->.
    destruct (Z_lt_le_dec 0 (gweiToWei (payoutAmount (account w)))) as [Hb|Hb];
      [destruct (Z_lt_le_dec 0 (remainingInChannel c)) as [Hr|Hr]|].
    + destruct (createClaim_claims c w Hb Hr) as (Hres & _).
      eexists. split; [exact Hres|].
      unfold signClaim, remainingInChannel, spentFromChannel in *.
      cbn [spent value]. split; lia.
    + destruct (createClaim_idle (Some c) w) as (Hres & _); [eauto|].
      exists c. split; [exact Hres|]. split; lia.
    + destruct (createClaim_idle (Some c) w) as (Hres & _); [eauto|].
      exists c. split; [exact Hres|]. split; lia.
Qed.

End CreateClaimProofs.

(** In the scenario, 7 gwei are owed and 3 gwei remain in the channel: the
    claim takes the 3 gwei. *)
Lemma createClaim_settles_balances_witness :
  payableBalance (account (snd (createClaim Scenario.master
                                  (Some Scenario.outgoingChannel) Scenario.owing)))
  = 7 - 3000000000 / GWEI /\
  payoutAmount (account (snd (createClaim Scenario.master
                                (Some Scenario.outgoingChannel) Scenario.owing)))
  = Z.min 0 (7 - 3000000000 / GWEI).
Proof.
  destruct (createClaim_settles_balances Scenario.master
              Scenario.outgoingChannel Scenario.owing)
    as (_ & _ & Hpayable & Hpayout & _).
  - reflexivity.
  - reflexivity.
  - split; [exact Hpayable | exact Hpayout].
Defined.

Lemma createClaim_spent_witness :
  exists c',
    fst (createClaim Scenario.master (Some Scenario.outgoingChannel) Scenario.owing)
    = Ok (Some c') /\
    spent c' = 2000000000 + Z.min 7000000000 3000000000.
Proof.
  destruct (createClaim_spent Scenario.master (Some Scenario.outgoingChannel)
              Scenario.owing) as (_ & Hnew & _).
  destruct (Hnew Scenario.outgoingChannel) as (c' & Hres & Hspent & _).
  - reflexivity.
  - reflexivity.
  - reflexivity.
  - exists c'. split; [exact Hres | exact Hspent].
Defined.

(** ** handleData: forwarded packets *)

Section ForwardingProofs.

Variable master : EthereumPlugin.
Variable moneyHandler : Z -> bool.
Variable dataHandler : Z -> AccountData -> Result IlpReply * AccountData.

Ltac run_ilp :=
  unfold handleData, deserializeIlpPrepare, callDataHandler, catch, bind, ret,
    throw, get, logAt, modify;
  cbn beta iota.

(** C4.  A PREPARE whose amount exceeds [maxPacketAmount] is rejected with
    [AmountTooLargeError]; one within it, the amount [maxPacketAmount] itself
    included, is not rejected for size: it is rejected with
    [InsufficientLiquidityError] when [receivableBalance + amount] exceeds
    [maxBalance], and handed to the data handler otherwise.  Neither rejection
    changes the account. *)
Theorem handleData_admission amount w :
  let run := handleData master moneyHandler dataHandler (PIlp (BufPrepare amount)) w in
  let receivable := receivableBalance (account w) in
  (_maxPacketAmount master < amount ->
   fst run = Ok [SubIlp (ErrorToReject AmountTooLargeError)] /\
   account (snd run) = account w) /\
  (amount <= _maxPacketAmount master ->
   _maxBalance master < receivable + amount ->
   fst run = Ok [SubIlp (ErrorToReject InsufficientLiquidityError)] /\
   account (snd run) = account w) /\
  (amount <= _maxPacketAmount master ->
   receivable + amount <= _maxBalance master ->
   fst run =
     Ok [SubIlp match fst (dataHandler amount
                             (set_receivableBalance (receivable + amount)
                                (account w))) with
                | Ok reply => Replied reply
                | Throw err => ErrorToReject err
                end]).
Proof.
  intros run receivable. subst run receivable. split; [|split].
  - intros H. run_ilp. apply Z.ltb_lt in H. rewrite H. split; reflexivity.
  - intros H H0. run_ilp. apply Z.ltb_ge in H. rewrite H. cbn beta iota.
    apply Z.ltb_lt in H0. rewrite H0. split; reflexivity.
  - intros H H0. run_ilp. apply Z.ltb_ge in H. rewrite H. cbn beta iota.
    apply Z.ltb_ge in H0. rewrite H0. cbn beta iota.
    cbn [account with_account set_log].
    destruct (dataHandler amount _) as [[[|code]|e] a']; reflexivity.
Qed.

(** C5.  For a PREPARE that passes both limits: when the data handler
    answers FULFILL, [receivableBalance] ends [amount] above where it
    started; when it answers REJECT, it ends where it started.  [drift] is
    what other tasks did to the balance while the handler was awaited; it is
    zero for a handler that leaves the account alone. *)
Theorem handleData_balance_conservation amount w :
  amount <= _maxPacketAmount master ->
  receivableBalance (account w) + amount <= _maxBalance master ->
  let receivable := receivableBalance (account w) in
  let handled :=
    dataHandler amount (set_receivableBalance (receivable + amount) (account w)) in
  let drift := receivableBalance (snd handled) - (receivable + amount) in
  let w' := snd (handleData master moneyHandler dataHandler
                   (PIlp (BufPrepare amount)) w) in
  (fst handled = Ok Fulfill ->
   receivableBalance (account w') = receivable + amount + drift) /\
  (forall code, fst handled = Ok (Reject code) ->
   receivableBalance (account w') = receivable + drift).
Proof.
  intros H H0 receivable handled drift w'. subst receivable handled drift w'.
  run_ilp. apply Z.ltb_ge in H. rewrite H. cbn beta iota.
  apply Z.ltb_ge in H0. rewrite H0. cbn beta iota.
  cbn [account with_account set_log].
  destruct (dataHandler amount _) as [[[|code]|e] a']; cbn [fst snd]; split;
    try discriminate; intros; cbn; lia.
Qed.

End ForwardingProofs.

(** In the scenario [maxPacketAmount] is 1000: a packet of 1001 is rejected
    for size, a packet of exactly 1000 reaches the data handler. *)
Lemma handleData_admission_witness :
  fst (handleData Scenario.master Scenario.moneyHandler Scenario.dataHandler
         (PIlp (BufPrepare 1001)) Scenario.world)
  = Ok [SubIlp (ErrorToReject AmountTooLargeError)] /\
  fst (handleData Scenario.master Scenario.moneyHandler Scenario.dataHandler
         (PIlp (BufPrepare 1000)) Scenario.world)
  = Ok [SubIlp (Replied Fulfill)].
Proof.
  split.
  - apply (handleData_admission Scenario.master Scenario.moneyHandler
             Scenario.dataHandler 1001 Scenario.world). reflexivity.
  - apply (handleData_admission Scenario.master Scenario.moneyHandler
             Scenario.dataHandler 1000 Scenario.world); discriminate.
Defined.

(** A fulfilled packet of 1000 raises the balance from 0 to 1000; a rejected
    one leaves it at 0. *)
Lemma handleData_balance_conservation_witness :
  receivableBalance
    (account (snd (handleData Scenario.master Scenario.moneyHandler
                     Scenario.dataHandler (PIlp (BufPrepare 1000)) Scenario.world)))
  = 0 + 1000 + 0 /\
  receivableBalance
    (account (snd (handleData Scenario.master Scenario.moneyHandler
                     Scenario.rejectingHandler (PIlp (BufPrepare 1000)) Scenario.world)))
  = 0 + 0.
Proof.
  split.
  - apply (handleData_balance_conservation Scenario.master Scenario.moneyHandler
             Scenario.dataHandler 1000 Scenario.world);
      [discriminate | discriminate | reflexivity].
  - apply (handleData_balance_conservation Scenario.master Scenario.moneyHandler
             Scenario.rejectingHandler 1000 Scenario.world) with (code := "F99");
      [discriminate | discriminate | reflexivity].
Defined.

(** ** Reading the chain *)

Section ChainProofs.

Variable master : EthereumPlugin.

Lemma updateChannel_run c w :
  updateChannel master c w =
  (Ok (match channelAt master (clock w) (channelId c) with
       | Some u => Some (mkChannel (channelId c) (contractAddress c) (sender u)
                           (receiver u) (value u) (disputePeriod u)
                           (disputedUntil u) (spent c) (signature c))
       | None => None
       end),
   set_clock (S (clock w)) w).
Proof. reflexivity. Qed.

Lemma refreshChannelFrom_frame retries c predicate : forall w,
  let w' := snd (refreshChannelFrom retries (updateChannel master c) predicate w) in
  log w' = log w /\ sameState w w'.
Proof.
  induction retries as [|n IH]; intros w; cbn [refreshChannelFrom].
  - split; [reflexivity | apply sameState_refl].
  - unfold bind, ret, delay, modify. rewrite updateChannel_run. cbn beta iota.
    destruct (predicate _).
    + cbn. repeat split.
    + cbn beta iota. 
      specialize (IH (set_clock (S (clock (set_clock (S (clock w)) w))) (set_clock (S (clock w)) w))).
      cbn zeta in IH. destruct IH as [Hl Hs]. split.
      * rewrite Hl. reflexivity.
      * eapply sameState_trans; [|exact Hs]. repeat split.
Qed.

Lemma refreshChannelFrom_ok retries c predicate : forall w r,
  fst (refreshChannelFrom retries (updateChannel master c) predicate w) = Ok r ->
  predicate r = true /\
  (r = None \/ exists u, r = Some u /\ channelId u = channelId c /\
                contractAddress u = contractAddress c /\
                spent u = spent c /\ signature u = signature c).
Proof.
  induction retries as [|n IH]; intros w r; cbn [refreshChannelFrom].
  - discriminate.
  - unfold bind, ret, delay, modify. rewrite updateChannel_run. cbn beta iota.
    destruct (predicate _) eqn:Hp.
    + cbn [fst]. intros [= <-]. split; [exact Hp|].
      destruct (channelAt master _ _); [right|now left].
      eexists. split; [reflexivity|]. cbn. auto.
    + cbn beta iota. apply IH.
Qed.

End ChainProofs.

(** ** claimIfProfitable *)

Section ClaimChannelProofs.

Variable master : EthereumPlugin.

(** C8.  The cached incoming channel is still on-chain, [updated] being its
    refreshed state.  If [requireDisputed] is set and the channel is not
    disputed, the refreshed state is returned and no transaction is
    submitted.  Past that gate and with no [authorize] callback, the claim
    transaction is submitted exactly when its fee is strictly less than
    [spent]; otherwise the refreshed state is returned. *)
Theorem claimIfProfitable_policy requireDisputed authorize cached updated w :
  incoming (account w) = Some cached ->
  fst (updateChannel master cached w) = Ok (Some updated) ->
  let run := claimIfProfitable master requireDisputed authorize w in
  let tx := TxClaim (channelId updated) (spent updated) (signature updated) in
  (requireDisputed = true -> isDisputed updated = false ->
   fst run = Ok (Some updated) /\ transactions (snd run) = transactions w) /\
  (authorize = None ->
   (requireDisputed && negb (isDisputed updated))%bool = false ->
   (_txFee master tx < spent updated ->
    transactions (snd run) = tx :: transactions w) /\
   (spent updated <= _txFee master tx ->
    fst run = Ok (Some updated) /\ transactions (snd run) = transactions w)).
Proof.
  intros Hc Hup run tx. subst run tx.
  unfold claimIfProfitable, incomingAdd, queueAdd, claimIfProfitableReducer,
    bind, logAt, modify, ret, catch, throw, queueTransaction.
  rewrite Hc. rewrite updateChannel_run in Hup |- *. cbn [fst] in Hup.
  injection Hup as Hup. rewrite Hup. cbn beta iota.
  split.
  - intros -> Hd. rewrite Hd. cbn. split; reflexivity.
  - intros -> Hgate. rewrite Hgate. cbn beta iota.
    split.
    + intros Hfee. apply Z.leb_gt in Hfee. rewrite Hfee.
      cbn beta iota. cbn [negb].
      destruct (_txConfirms master _ _); cbn beta iota.
      * match goal with |- context [refreshChannel ?f ?p ?w0] =>
          pose proof (refreshChannelFrom_frame master 21 updated p w0) as Hframe
        end.
        cbn zeta in Hframe. destruct Hframe as (_ & _ & _ & _ & _ & _ & Htx & _).
        unfold refreshChannel.
        destruct (refreshChannelFrom 21 _ _ _) as [[closed|e] w2]; cbn beta iota;
          cbn; cbn in Htx; exact Htx.
      * cbn. reflexivity.
    + intros Hfee. apply Z.leb_le in Hfee. rewrite Hfee.
      cbn. split; reflexivity.
Qed.

End ClaimChannelProofs.

(** In the scenario the fee is 100 wei and 2 gwei were claimed: without
    [requireDisputed] the claim is submitted; with it nothing is, the channel
    being undisputed. *)
Lemma claimIfProfitable_policy_witness :
  transactions (snd (claimIfProfitable Scenario.master false None Scenario.receiving))
  = [TxClaim "0x01" 2000000000 (Some "0xsig")] /\
  transactions (snd (claimIfProfitable Scenario.master true None Scenario.receiving))
  = [].
Proof.
  split.
  - apply (claimIfProfitable_policy Scenario.master false None Scenario.linked
             Scenario.linked Scenario.receiving); reflexivity.
  - destruct (claimIfProfitable_policy Scenario.master true None Scenario.linked
                Scenario.linked Scenario.receiving eq_refl eq_refl)
      as [Hgate _].
    apply Hgate; reflexivity.
Defined.

(** ** depositToChannel *)

Section DepositProofs.

Variable master : EthereumPlugin.

Lemma createClaim_descends c w :
  exists c', fst (createClaim master (Some c) w) = Ok (Some c') /\ descends c c' /\
    depositQueue (snd (createClaim master (Some c) w)) = depositQueue w.
Proof.
  unfold createClaim, autoFundOutgoingChannel, sendClaim, sendMessage,
    bind, ret, get, logAt, modify. cbn beta iota.
  repeat split_goal; bool_facts; cbn [fst snd];
    (eexists; split; [reflexivity|]; split; [|reflexivity]);
    unfold descends, signClaim, remainingInChannel, spentFromChannel in *;
    cbn [channelId contractAddress value spent]; repeat split; try lia.
Qed.

Lemma depositQueueAdd_createClaim c w :
  depositQueue w = Some (Some c) ->
  exists c', depositQueueAdd (createClaim master) w =
             (Ok (Some c'), set_depositQueue (Some (Some c')) (snd (createClaim master (Some c) w)))
             /\ descends c c'.
Proof.
  intros Hq. unfold depositQueueAdd, queueAdd. rewrite Hq.
  destruct (createClaim_descends c w) as (c' & Hres & Hd & _).
  destruct (createClaim master (Some c) w) as [r w1]. cbn [fst snd] in *. subst r.
  exists c'. split; [reflexivity | exact Hd].
Qed.

Lemma descends_refl c : descends c c.
Proof. unfold descends. repeat split; lia. Qed.

Lemma descends_trans a b c : descends a b -> descends b c -> descends a c.
Proof. unfold descends. intuition (try congruence; try lia). Qed.

Lemma sendMoney_side c amount w :
  depositQueue w = Some (Some c) ->
  exists c', fst (sendMoney master amount w) = Ok tt /\
             depositQueue (snd (sendMoney master amount w)) = Some (Some c') /\
             descends c c'.
Proof.
  intros Hq. unfold sendMoney, bind, get, modify, ret. cbn beta iota.
  cbn [depositQueue with_account]. rewrite Hq.
  match goal with |- context [depositQueueAdd _ ?w0] =>
    destruct (depositQueueAdd_createClaim c w0 Hq) as (c' & Hrun & Hd)
  end.
  rewrite Hrun. exists c'. cbn beta iota.
  split; [reflexivity | split; [reflexivity | exact Hd]].
Qed.

Lemma concurrently_side pending : forall c w,
  depositQueue w = Some (Some c) ->
  exists c', fst (concurrently master pending w) = Ok tt /\
             depositQueue (snd (concurrently master pending w)) = Some (Some c') /\
             descends c c'.
Proof.
  induction pending as [|amount rest IH]; intros c w Hq.
  - exists c. split; [reflexivity | split; [exact Hq | apply descends_refl]].
  - cbn [concurrently]. unfold bind, catch.
    destruct (sendMoney_side c amount w Hq) as (c1 & Hok & Hq1 & Hd1).
    destruct (sendMoney master amount w) as [r w1]. cbn [fst snd] in *. subst r.
    destruct (IH c1 w1 Hq1) as (c' & Hok' & Hq' & Hd').
    exists c'. split; [exact Hok' | split; [exact Hq'|]].
    eapply descends_trans; eassumption.
Qed.

Lemma depositSideQueue_run channel pending w :
  exists forked,
    fst (depositSideQueue master channel pending w) = Ok tt /\
    depositQueue (snd (depositSideQueue master channel pending w)) = Some (Some forked) /\
    descends channel forked.
Proof.
  unfold depositSideQueue, bind, catch, modify, ret. cbn beta iota.
  match goal with |- context [depositQueueAdd _ ?w0] =>
    destruct (depositQueueAdd_createClaim channel w0 eq_refl) as (c1 & Hrun & Hd1)
  end.
  rewrite Hrun.
  match goal with |- context [concurrently _ _ ?w0] =>
    destruct (concurrently_side pending c1 w0 eq_refl) as (c' & Hok & Hq & Hd)
  end.
  exists c'. split; [exact Hok | split; [exact Hq|]].
  eapply descends_trans; eassumption.
Qed.

Lemma depositAttempt_frame channel deposit authorize w :
  depositQueue (snd (depositAttempt master channel deposit authorize w)) = depositQueue w.
Proof.
  unfold depositAttempt, bind, throw, ret, logAt, modify, queueTransaction.
  destruct (authorize _); [|reflexivity]. cbn beta iota.
  destruct (_txConfirms master _ _); [|reflexivity]. cbn beta iota.
  match goal with |- context [refreshChannel ?f ?p ?w0] =>
    pose proof (refreshChannelFrom_frame master 21 channel p w0) as Hframe
  end.
  cbn zeta in Hframe. destruct Hframe as (_ & _ & Hdq & _).
  unfold refreshChannel. rewrite Hdq. reflexivity.
Qed.

Lemma depositAttempt_ok channel deposit authorize w r :
  fst (depositAttempt master channel deposit authorize w) = Ok r ->
  exists updated, r = Some updated /\
    value updated = value channel + deposit /\
    channelId updated = channelId channel /\
    contractAddress updated = contractAddress channel.
Proof.
  unfold depositAttempt, bind, throw, ret, logAt, modify, queueTransaction.
  destruct (authorize _); [|discriminate]. cbn beta iota.
  destruct (_txConfirms master _ _); [|discriminate]. cbn beta iota.
  unfold refreshChannel. intros Hok.
  apply refreshChannelFrom_ok in Hok. destruct Hok as [Hp [->|(u & -> & Hid & Hc & _)]].
  - discriminate.
  - exists u. apply Z.eqb_eq in Hp. auto.
Qed.

Lemma bind_assoc {A B C} (m : M A) (f : A -> M B) (g : B -> M C) w :
  bind m (fun x => bind (f x) g) w = bind (bind m f) g w.
Proof. unfold bind. destruct (m w) as [[a|e] w']; reflexivity. Qed.

Lemma depositToChannel_split channel deposit authorize pending w :
  depositToChannel master channel deposit authorize pending w =
  bind (depositSideQueue master channel pending) (fun _ =>
    awaitProvider master;;
    catch
      (let* updatedChannel := depositAttempt master channel deposit authorize in
       logAt Debug "Informing peer of channel top-up";;
       sendMessage MsgChannelDeposit;;
       logAt Debug "Successfully deposited to channel";;
       let* forkedState := clearDepositQueue in
       ret (match forkedState with
            | Some forked =>
                match updatedChannel with
                | Some updated => Some (mergeDeposit updated forked)
                | None => None
                end
            | None => updatedChannel
            end))
      (fun err =>
         logAt Error "Failed to deposit to channel:";;
         clearDepositQueue)) w.
Proof.
  unfold depositToChannel, depositSideQueue, depositAttempt, mergeDeposit.
  unfold awaitProvider, bind, catch.
  cbn beta iota.
  repeat split_goal; try reflexivity; try congruence.
Qed.

Lemma depositToChannel_run channel deposit authorize pending w :
  let w1 := snd (depositSideQueue master channel pending w) in
  _providerReady master (clock w1) = true ->
  exists forked,
    sideState w1 = Some forked /\ descends channel forked /\
    depositToChannel master channel deposit authorize pending w =
    match depositAttempt master channel deposit authorize w1 with
    | (Ok (Some updated), w2) =>
        (Ok (Some (mergeDeposit updated forked)),
         set_depositQueue None
           (set_log ((Debug, "Successfully deposited to channel")
                     :: (Debug, "Informing peer of channel top-up") :: log w2)
              (set_sent (MsgChannelDeposit :: sent w2) w2)))
    | (Ok None, w2) =>
        (Ok None,
         set_depositQueue None
           (set_log ((Debug, "Successfully deposited to channel")
                     :: (Debug, "Informing peer of channel top-up") :: log w2)
              (set_sent (MsgChannelDeposit :: sent w2) w2)))
    | (Throw err, w2) =>
        (Ok (Some forked),
         set_depositQueue None
           (set_log ((Error, "Failed to deposit to channel:") :: log w2) w2))
    end.
Proof.
  intros w1 Hready. subst w1. rewrite depositToChannel_split.
  destruct (depositSideQueue_run channel pending w) as (forked & Hok & Hq & Hd).
  unfold bind at 1.
  destruct (depositSideQueue master channel pending w) as [r w1].
  cbn [fst snd] in *. subst r.
  exists forked. split; [unfold sideState; rewrite Hq; reflexivity|].
  split; [exact Hd|].
  unfold bind at 1. unfold awaitProvider. rewrite Hready.
  pose proof (depositAttempt_frame channel deposit authorize w1) as Hframe.
  unfold clearDepositQueue, sendMessage, logAt, catch, bind, modify, get, ret.
  destruct (depositAttempt master channel deposit authorize w1) as [[r|e] w2];
    cbn [fst snd] in *;
    cbn beta iota; cbn [depositQueue set_log set_sent]; rewrite Hframe, Hq;
    cbn beta iota.
  - destruct r; reflexivity.
  - reflexivity.
Qed.

(** When awaiting the contract handle or the gas price rejects, the method
    throws where the side-queue left the world: nothing is cleared, nothing
    merged. *)
Lemma depositToChannel_outage channel deposit authorize pending w :
  let w1 := snd (depositSideQueue master channel pending w) in
  _providerReady master (clock w1) = false ->
  depositToChannel master channel deposit authorize pending w
  = (Throw ProviderError, w1).
Proof.
  intros w1 Hready. subst w1. rewrite depositToChannel_split.
  destruct (depositSideQueue_run channel pending w) as (forked & Hok & _).
  unfold bind at 1.
  destruct (depositSideQueue master channel pending w) as [r w1].
  cbn [fst snd] in *. subst r.
  unfold bind at 1. unfold awaitProvider. rewrite Hready. reflexivity.
Qed.

End DepositProofs.

(** C7 (at the input where the code departs from the claim).  The outgoing
    channel holds 5 gwei with 2 of them spent, and a deposit of 1 gwei is
    asked for while awaiting the contract handle and the gas price rejects.
    By then the side-queue has signed a claim for 3 gwei, and a [sendMoney]
    that arrived meanwhile one for 4 gwei; both were sent to the peer and
    taken off the payable balance.  [depositToChannel] throws: the
    side-queue is left in place with the claim for 4 gwei, and the outgoing
    queue, whose reducer failed, keeps the state with 2 gwei spent.  The
    claims the peer holds are not in the committed state.  Had the failure
    come from inside the promise chain, here a fee that is not authorised,
    the committed state would be the side-queue's. *)
Theorem depositToChannel_loses_claims_when_provider_fails :
  let forked := signClaim Outage.master 4000000000 Scenario.outgoingChannel in
  let run := depositToChannel Outage.master Scenario.outgoingChannel 1000000000
               (fun _ => true) [Some 1] Outage.world in
  let funded := fundOutgoingChannel Outage.master Timeline.infoResponse
                  Timeline.generateChannelId 1000000000 (fun _ => true) [Some 1]
                  Outage.world in
  let refused := fundOutgoingChannel Scenario.master Timeline.infoResponse
                   Timeline.generateChannelId 1000000000 (fun _ => false)
                   [Some 1] Outage.world in
  fst run = Throw ProviderError /\
  sent (snd run)
  = [MsgMachinomy "0x02" (Some "0xsig") 4000000000 Scenario.contract;
     MsgMachinomy "0x02" (Some "0xsig") 3000000000 Scenario.contract] /\
  payableBalance (account (snd run)) = 7 - 2 /\
  depositQueue (snd run) = Some (Some forked) /\
  transactions (snd run) = [] /\
  fst funded = Throw ProviderError /\
  outgoing (account (snd funded)) = Some Scenario.outgoingChannel /\
  spent Scenario.outgoingChannel = 2000000000 /\
  depositQueue (snd funded) = Some (Some forked) /\
  fst refused = Ok (Some forked) /\
  outgoing (account (snd refused)) = Some forked /\
  depositQueue (snd refused) = None.
Proof.
  vm_compute. repeat split.
Qed.



(** ** handleData: claims from the peer *)

Section ClaimMessageProofs.

Variable master : EthereumPlugin.
Variable moneyHandler : Z -> bool.
Variable dataHandler : Z -> AccountData -> Result IlpReply * AccountData.




End ClaimMessageProofs.



(** ** validateClaim: what an accepted claim commits and credits *)

Section ValidateClaimAcceptProofs.

Variable master : EthereumPlugin.
Variable moneyHandler : Z -> bool.

(** A state [validateClaim] newly commits is covered by the channel:
    [0 <= spent <= value], with [value] and [sender] from the snapshot [u] of
    the chain against which the claim's signature was verified.  It carries
    the claim's value and signature, is on this plugin's contract, and never
    lowers [spent].  For a cached channel it is the same channel and raises
    [spent]; a new channel names this wallet as receiver and has a dispute
    period at or above the floor. *)
Theorem validateClaim_accepted_state claim cached w s w' :
  validateClaim master moneyHandler claim cached w = (Ok s, w') ->
  s <> cached ->
  exists c' u,
    s = Some c' /\
    solvent c' /\
    spentOrZero cached <= spent c' /\
    spent c' = Claim.value claim /\
    signature c' = Some (Claim.signature claim) /\
    _isValidClaimSignature master claim u = true /\
    sender c' = sender u /\ value c' = value u /\
    toLowerCase (contractAddress c') = toLowerCase (_contract_address master) /\
    match cached with
    | Some c => channelId c' = channelId c /\ spent c < spent c'
    | None =>
        toLowerCase (receiver c') = toLowerCase (_wallet_address master) /\
        _minIncomingDisputePeriod master <= disputePeriod c'
    end.
Proof.
  intros Hrun Hnew. apply validateClaim_outcome in Hrun.
  inversion Hrun as
    [ | | u w2 Hp Hinc Hstore Hcredit Hwatch Hdq Hsent Htx Haf | ];
    subst; try congruence.
  destruct Hp as (_ & Hv & Hsig & Hcontract & Hrest).
  exists (acceptedChannel claim u), u. unfold acceptedChannel, solvent.
  cbn [spent value signature sender contractAddress channelId receiver disputePeriod].
  unfold claimIncrement in Hinc.
  destruct cached as [c|]; cbn [bool_decide decide_rel is_Some_dec spentOrZero] in *.
  - repeat split; try assumption; try lia.
  - repeat split; try apply Hrest; try assumption; try lia.
Qed.

(** When [validateClaim] commits a new state, the receivable balance drops by
    the claim's increment over the cached claim, in whole gwei rounded down,
    and the money handler is called once with that amount (not at all for an
    increment of zero).  The credit never exceeds the increment; the payable
    balance and the payout amount are untouched. *)
Theorem validateClaim_credit claim cached w s w' :
  validateClaim master moneyHandler claim cached w = (Ok s, w') ->
  s <> cached ->
  let increment := Claim.value claim - spentOrZero cached in
  0 <= increment /\
  receivableBalance (account w') = receivableBalance (account w) - increment / GWEI /\
  payableBalance (account w') = payableBalance (account w) /\
  payoutAmount (account w') = payoutAmount (account w) /\
  (0 < increment -> moneyCalls w' = increment / GWEI :: moneyCalls w) /\
  (increment = 0 -> moneyCalls w' = moneyCalls w) /\
  0 <= gweiToWei (increment / GWEI) <= increment.
Proof.
  intros Hrun Hnew increment. apply validateClaim_outcome in Hrun.
  inversion Hrun as
    [ | | u w2 Hp Hinc Hstore Hcredit Hwatch Hdq Hsent Htx Haf | ];
    subst; try congruence.
  destruct Hp as (_ & Hv & _).
  assert (Heq : claimIncrement claim cached u = increment).
  { unfold claimIncrement, increment, spentOrZero. destruct cached; lia. }
  rewrite Heq in *.
  assert (H0 : 0 <= increment).
  { destruct cached; cbn [bool_decide decide_rel is_Some_dec] in Hinc; lia. }
  assert (Hq : weiToGweiDown increment = increment / GWEI).
  { unfold weiToGweiDown. apply Z.quot_div_nonneg; [lia | reflexivity]. }
  pose proof (Z.mul_div_le increment GWEI eq_refl) as Hle.
  pose proof (Z.div_pos increment GWEI H0 eq_refl) as Hpos.
  unfold gweiToWei.
  destruct (0 <? increment) eqn:Hlt; bool_facts.
  - destruct Hcredit as (Hacc & Hmc & _). rewrite Hacc, Hmc, Hq.
    cbn [receivableBalance payableBalance payoutAmount set_receivableBalance].
    unfold GWEI in *. repeat split; intros; lia.
  - destruct Hcredit as (Hacc & Hmc). rewrite Hacc, Hmc.
    assert (increment = 0) as -> by lia.
    unfold GWEI in *. repeat split; intros; try lia; reflexivity.
Qed.

End ValidateClaimAcceptProofs.

(** In the scenario a claim for 3.5 gwei on the channel with 2 gwei claimed is
    accepted with [spent] at 3.5 gwei of the 5 the channel holds. *)
Lemma validateClaim_accepted_state_witness :
  exists c',
    fst (validateClaim Scenario.master Scenario.moneyHandler
           (Scenario.claimOf 3500000000) (Some Scenario.linked) Scenario.receiving)
    = Ok (Some c') /\
    solvent c' /\ spent c' = 3500000000.
Proof.
  destruct (validateClaim_accepted_state Scenario.master Scenario.moneyHandler
              (Scenario.claimOf 3500000000) (Some Scenario.linked)
              Scenario.receiving
              (Some (acceptedChannel (Scenario.claimOf 3500000000) Scenario.linked))
              (snd (validateClaim Scenario.master Scenario.moneyHandler
                      (Scenario.claimOf 3500000000) (Some Scenario.linked)
                      Scenario.receiving)))
    as (c' & u & Hs & Hsolvent & _ & Hspent & _).
  - vm_compute. reflexivity.
  - discriminate.
  - exists c'. split; [|split; [exact Hsolvent | exact Hspent]].
    rewrite <- Hs. vm_compute. reflexivity.
Defined.

(** The same claim adds 1.5 gwei to the 2 claimed: one gwei is credited and
    the money handler is told so. *)
Lemma validateClaim_credit_witness :
  receivableBalance
    (account (snd (validateClaim Scenario.master Scenario.moneyHandler
                     (Scenario.claimOf 3500000000) (Some Scenario.linked)
                     Scenario.receiving)))
  = 0 - (3500000000 - 2000000000) / GWEI /\
  (0 < 3500000000 - 2000000000 ->
   moneyCalls (snd (validateClaim Scenario.master Scenario.moneyHandler
                      (Scenario.claimOf 3500000000) (Some Scenario.linked)
                      Scenario.receiving))
   = [(3500000000 - 2000000000) / GWEI]).
Proof.
  destruct (validateClaim_credit Scenario.master Scenario.moneyHandler
              (Scenario.claimOf 3500000000) (Some Scenario.linked)
              Scenario.receiving
              (Some (acceptedChannel (Scenario.claimOf 3500000000) Scenario.linked))
              (snd (validateClaim Scenario.master Scenario.moneyHandler
                      (Scenario.claimOf 3500000000) (Some Scenario.linked)
                      Scenario.receiving)))
    as (_ & Hreceivable & _ & _ & Hcalls & _).
  - vm_compute. reflexivity.
  - discriminate.
  - split; [exact Hreceivable | exact Hcalls].
Defined.

(** ** validateClaim: waiting for the chain *)

Section ValidateClaimRetryProofs.

Variable master : EthereumPlugin.
Variable moneyHandler : Z -> bool.

Lemma validateClaimFrom_clock retries : forall claim cached w r w',
  validateClaimFrom master moneyHandler retries claim cached w = (r, w') ->
  (clock w <= clock w' <= clock w + 2 * retries + 1)%nat.
Proof.
  induction retries as [|n IH]; intros claim cached w r w' H.
  - cbn [validateClaimFrom] in H.
    unfold bind, ret, fetchChannel, logAt, delay, modify, get, callMoneyHandler in H.
    repeat split_run H; end_run H; cbn; lia.
  - cbn [validateClaimFrom] in H.
    unfold bind, ret, fetchChannel, logAt, delay, modify, get, callMoneyHandler in H.
    repeat split_run H;
      try (apply IH in H; cbn in H; lia);
      end_run H; cbn; lia.
Qed.

Lemma validateClaim_clock claim cached w r w' :
  validateClaim master moneyHandler claim cached w = (r, w') ->
  (clock w <= clock w' <= clock w + 2 * 21 + 1)%nat.
Proof. apply (validateClaimFrom_clock 21). Qed.

(** [validateClaim] gives up: whatever the chain shows, it reads the chain at
    most 22 times and waits at most 21 times before it returns. *)
Theorem validateClaim_bounded_reads claim cached w :
  let w' := snd (validateClaim master moneyHandler claim cached w) in
  (clock w <= clock w' <= clock w + 43)%nat.
Proof.
  intros w'. subst w'.
  destruct (validateClaim master moneyHandler claim cached w) as [r w'] eqn:Hrun.
  apply validateClaim_clock in Hrun. cbn [snd]. lia.
Qed.

Lemma validateClaimFrom_waits claim c u k : forall retries w,
  (k <= retries)%nat ->
  Claim.channelId claim = channelId c ->
  value c < Claim.value claim ->
  0 <= Claim.value claim ->
  spent c < Claim.value claim ->
  toLowerCase (Claim.contractAddress claim) = toLowerCase (_contract_address master) ->
  (forall t ch, channelAt master t (Claim.channelId claim) = Some ch ->
                _isValidClaimSignature master claim ch = true) ->
  (forall i, (i < k)%nat ->
     exists ch, channelAt master (clock w + 2 * i) (Claim.channelId claim) = Some ch /\
                value ch < Claim.value claim) ->
  channelAt master (clock w + 2 * k) (Claim.channelId claim) = Some u ->
  Claim.value claim <= value u ->
  moneyHandler (weiToGweiDown (Claim.value claim - spent c)) = true ->
  fst (validateClaimFrom master moneyHandler retries claim (Some c) w)
  = Ok (Some (acceptedChannel claim u)).
Proof.
  induction k as [|k IH]; intros retries w Hk Hid Hfetch Hnn Hbest Hcontract Hsig Hlow Hu Hv Hmh.
  - replace (clock w + 2 * 0)%nat with (clock w) in Hu by lia.
    assert (Hstep : forall r, fst (validateClaimFrom master moneyHandler r claim (Some c) w)
                              = Ok (Some (acceptedChannel claim u))).
    { intros r. destruct r; cbn [validateClaimFrom];
      unfold bind, ret, fetchChannel, logAt, delay, modify, get, callMoneyHandler;
      cbn beta iota.
      all: apply Z.ltb_lt in Hfetch; rewrite Hfetch; cbn beta iota; rewrite Hu; cbn beta iota.
      all: unfold eqs; rewrite (bool_decide_eq_true_2 _ Hid); cbn [negb].
      all: apply Z.ltb_ge in Hnn; rewrite Hnn.
      all: rewrite (bool_decide_eq_true_2 _ Hcontract); cbn [negb].
      all: rewrite (Hsig _ _ Hu); cbn [negb].
      all: apply Z.leb_le in Hv; rewrite Hv; cbn [negb]; cbn beta iota.
      all: apply Z.leb_le in Hv.
      all: replace (Z.min (Claim.value claim) (value u)) with (Claim.value claim) by lia.
      all: assert (Hpos : (0 <? Claim.value claim - spent c) = true) by (apply Z.ltb_lt; lia).
      all: rewrite Hpos; cbn [negb andb]; cbn beta iota; rewrite Hmh; reflexivity. }
    apply Hstep.
  - destruct retries as [|r]; [lia|].
    destruct (Hlow 0%nat) as (ch & Hch & Hchv); [lia|].
    replace (clock w + 2 * 0)%nat with (clock w) in Hch by lia.
    cbn [validateClaimFrom].
    unfold bind, ret, fetchChannel, logAt, delay, modify, get, callMoneyHandler.
    cbn beta iota.
    pose proof Hfetch as Hfetch'. apply Z.ltb_lt in Hfetch'. rewrite Hfetch'.
    cbn beta iota. rewrite Hch. cbn beta iota.
    unfold eqs. rewrite (bool_decide_eq_true_2 _ Hid). cbn [negb].
    pose proof Hnn as Hnn'. apply Z.ltb_ge in Hnn'. rewrite Hnn'.
    rewrite (bool_decide_eq_true_2 _ Hcontract). cbn [negb].
    rewrite (Hsig _ _ Hch). cbn [negb].
    assert (Hins : (Claim.value claim <=? value ch) = false) by (apply Z.leb_gt; lia).
    rewrite Hins. cbn [negb]. cbn beta iota.
    match goal with |- fst (validateClaimFrom _ _ _ _ _ ?w2) = _ =>
      apply (IH r w2)
    end; try assumption; try lia.
    + intros i Hi. destruct (Hlow (S i)) as (ch' & Hch' & Hv'); [lia|].
      exists ch'. split; [|exact Hv'].
      cbn [clock set_clock]. rewrite <- Hch'. f_equal. lia.
    + cbn [clock set_clock]. rewrite <- Hu. f_equal. lia.
Qed.

(** A claim above the cached value of its channel waits for the peer's
    deposit to show on-chain.  The claim is for the cached channel [c], well
    signed, above the cached value and the cached claim.  The chain shows the
    channel short of the claim at the first [k] looks, [k <= 21], and
    covering it at the next, two time steps apart (a look and a wait).  Then
    the claim is accepted against the covering snapshot, if the money handler
    takes the credit. *)
Theorem validateClaim_waits_for_deposit claim c u k w :
  (k <= 21)%nat ->
  Claim.channelId claim = channelId c ->
  value c < Claim.value claim ->
  0 <= Claim.value claim ->
  spent c < Claim.value claim ->
  toLowerCase (Claim.contractAddress claim) = toLowerCase (_contract_address master) ->
  (forall t ch, channelAt master t (Claim.channelId claim) = Some ch ->
                _isValidClaimSignature master claim ch = true) ->
  (forall i, (i < k)%nat ->
     exists ch, channelAt master (clock w + 2 * i) (Claim.channelId claim) = Some ch /\
                value ch < Claim.value claim) ->
  channelAt master (clock w + 2 * k) (Claim.channelId claim) = Some u ->
  Claim.value claim <= value u ->
  moneyHandler (weiToGweiDown (Claim.value claim - spent c)) = true ->
  fst (validateClaim master moneyHandler claim (Some c) w)
  = Ok (Some (acceptedChannel claim u)).
Proof.
  intros Hk. unfold validateClaim. apply validateClaimFrom_waits. exact Hk.
Qed.

End ValidateClaimRetryProofs.

(** The cached incoming channel holds 5 gwei and a claim for 7 gwei arrives;
    the peer's deposit to 8 gwei shows at time 4, the third look. *)
Lemma validateClaim_waits_for_deposit_witness :
  fst (validateClaim Timeline.master Scenario.moneyHandler
         (Scenario.claimOf 7000000000) (Some Scenario.linked) Scenario.receiving)
  = Ok (Some (mkChannel "0x01" "0xcc03" Scenario.peer "0xaa01" 8000000000 100
                None 7000000000 (Some "0xsig"))).
Proof.
  apply (validateClaim_waits_for_deposit Timeline.master Scenario.moneyHandler
           (Scenario.claimOf 7000000000) Scenario.linked
           (mkChannel "0x01" Scenario.contract Scenario.peer "0xaa01" 8000000000
              100 None 0 None) 2 Scenario.receiving).
  - lia.
  - reflexivity.
  - reflexivity.
  - discriminate.
  - reflexivity.
  - reflexivity.
  - intros t ch _. reflexivity.
  - intros [|[|i]] Hi; [| |lia]; eexists; (split; [reflexivity|reflexivity]).
  - reflexivity.
  - discriminate.
  - reflexivity.
Defined.

(** ** createClaim: the backlog and the message *)

Section SettlementProofs.

Variable master : EthereumPlugin.

(** When [createClaim] signs a new claim, the payout amount afterwards is
    exactly zero, also when the channel could not cover it: what was not
    paid is no longer queued.  The payable balance drops by the whole gwei
    [settled], at most the payout amount, and the claim pays at least
    [settled] gwei and less than one gwei more. *)
Theorem createClaim_forgets_backlog c w :
  0 < gweiToWei (payoutAmount (account w)) ->
  0 < remainingInChannel c ->
  let w' := snd (createClaim master (Some c) w) in
  let paid := Z.min (remainingInChannel c) (gweiToWei (payoutAmount (account w))) in
  let settled := payableBalance (account w) - payableBalance (account w') in
  payoutAmount (account w') = 0 /\
  0 <= settled <= payoutAmount (account w) /\
  gweiToWei settled <= paid < gweiToWei (settled + 1).
Proof.
  intros Hb Hr w' paid settled.
  destruct (createClaim_claims master c w Hb Hr) as (_ & Hacc & _).
  fold paid in Hacc. fold w' in Hacc.
  assert (Hi : 0 < paid) by (subst paid; lia).
  assert (Hq : weiToGweiDown paid = paid / GWEI).
  { unfold weiToGweiDown. apply Z.quot_div_nonneg; [lia | reflexivity]. }
  assert (Hle : paid <= gweiToWei (payoutAmount (account w))) by (subst paid; lia).
  subst settled. rewrite Hacc, Hq.
  cbn [payableBalance payoutAmount set_payoutAmount set_payableBalance].
  unfold gweiToWei, GWEI in *.
  pose proof (Z.div_mod paid 1000000000 ltac:(lia)) as Hdm.
  pose proof (Z.mod_pos_bound paid 1000000000 ltac:(lia)) as Hmod.
  assert (paid / 1000000000 <= payoutAmount (account w)).
  { apply Z.div_le_upper_bound; lia. }
  assert (0 <= paid / 1000000000) by (apply Z.div_pos; lia).
  repeat split; lia.
Qed.

(** [createClaim] either returns the state it was given and sends nothing,
    or returns the channel with a higher [spent], signed by this plugin over
    the contract, the channel id and the new [spent], every other field as
    it was, and sends the peer exactly that claim. *)
Theorem createClaim_sends_what_it_commits cached w :
  let r := fst (createClaim master cached w) in
  let w' := snd (createClaim master cached w) in
  (r = Ok cached /\ sent w' = sent w) \/
  (exists c c',
     cached = Some c /\ r = Ok (Some c') /\ spent c < spent c' /\
     signature c' = Some (_sign master (contractAddress c) (channelId c) (spent c')) /\
     channelId c' = channelId c /\ contractAddress c' = contractAddress c /\
     sender c' = sender c /\ receiver c' = receiver c /\ value c' = value c /\
     disputePeriod c' = disputePeriod c /\ disputedUntil c' = disputedUntil c /\
     sent w' = MsgMachinomy (channelId c') (signature c') (spent c')
                 (contractAddress c') :: sent w).
Proof.
  intros r w'. subst r w'.
  destruct (Z_lt_le_dec 0 (gweiToWei (payoutAmount (account w)))) as [Hb|Hb].
  - destruct cached as [c|].
    + destruct (Z_lt_le_dec 0 (remainingInChannel c)) as [Hr|Hr].
      * right. destruct (createClaim_claims master c w Hb Hr) as (Hres & _ & Hsent).
        exists c. eexists. split; [reflexivity|]. split; [exact Hres|].
        rewrite Hsent. unfold signClaim. cbn. repeat split. lia.
      * left. destruct (createClaim_idle master (Some c) w) as (Hres & _ & Hsent); eauto.
    + left. destruct (createClaim_idle master None w) as (Hres & _ & Hsent); auto.
  - left. destruct (createClaim_idle master cached w) as (Hres & _ & Hsent); auto.
Qed.

End SettlementProofs.

(** In the scenario 7 gwei are queued and 3 gwei remain in the channel: the
    claim pays the 3 gwei and the other 4 are dropped from the queue. *)
Lemma createClaim_forgets_backlog_witness :
  payoutAmount (account (snd (createClaim Scenario.master
                                (Some Scenario.outgoingChannel) Scenario.owing)))
  = 0 /\
  payableBalance (account (snd (createClaim Scenario.master
                                  (Some Scenario.outgoingChannel) Scenario.owing)))
  = 4.
Proof.
  destruct (createClaim_forgets_backlog Scenario.master
              Scenario.outgoingChannel Scenario.owing)
    as (Hpayout & _ & _).
  - reflexivity.
  - reflexivity.
  - split; [exact Hpayout | reflexivity].
Defined.

(** ** sendMoney and handlePrepareResponse *)

Section ForwardedReplyProofs.

Variable master : EthereumPlugin.

Lemma createClaim_cell cached w :
  exists r,
    fst (createClaim master cached w) = Ok r /\
    (cached = None -> r = None) /\
    (forall c, cached = Some c -> exists c', r = Some c' /\ descends c c') /\
    outgoing (account (snd (createClaim master cached w))) = outgoing (account w) /\
    incoming (account (snd (createClaim master cached w))) = incoming (account w) /\
    depositQueue (snd (createClaim master cached w)) = depositQueue w /\
    transactions (snd (createClaim master cached w)) = transactions w.
Proof.
  unfold createClaim, autoFundOutgoingChannel, sendClaim, sendMessage,
    bind, ret, get, logAt, modify. cbn beta iota.
  repeat split_goal; bool_facts; cbn [fst snd];
    (eexists; split; [reflexivity|]);
    (split; [congruence|]); (split; [|cbn; auto]);
    intros c' Hc; first [discriminate Hc | injection Hc as <- | subst];
    eexists; (split; [reflexivity|]);
    unfold descends, signClaim, remainingInChannel, spentFromChannel in *;
    cbn [channelId contractAddress value spent]; repeat split; try lia.
Qed.

(** [sendMoney] never fails and never submits a transaction.  While a
    deposit is in progress it leaves the outgoing channel alone and the claim
    goes to the deposit's side-queue; otherwise the claim goes to the
    outgoing channel.  Either way the channel it acts on keeps its identity
    and value, and its [spent] does not decrease. *)
Theorem sendMoney_routes amount w :
  let w' := snd (sendMoney master amount w) in
  fst (sendMoney master amount w) = Ok tt /\
  transactions w' = transactions w /\
  match depositQueue w with
  | Some side =>
      outgoing (account w') = outgoing (account w) /\
      exists side',
        depositQueue w' = Some side' /\
        (side = None -> side' = None) /\
        (forall c, side = Some c -> exists c', side' = Some c' /\ descends c c')
  | None =>
      depositQueue w' = None /\
      match outgoing (account w) with
      | None => outgoing (account w') = None
      | Some c => exists c', outgoing (account w') = Some c' /\ descends c c'
      end
  end.
Proof.
  intros w'. subst w'.
  unfold sendMoney, bind, get, modify, ret. cbn beta iota.
  cbn [depositQueue with_account].
  destruct (depositQueue w) as [side|] eqn:Hq; cbn beta iota.
  - unfold depositQueueAdd, queueAdd. cbn [depositQueue with_account]. rewrite Hq.
    match goal with |- context [createClaim master ?s ?w0] =>
      destruct (createClaim_cell s w0) as (r & Hres & Hnone & Hsome & Hout & _ & Hdq & Htx)
    end.
    destruct (createClaim master side _) as [r1 w1]. cbn [fst snd] in *. subst r1.
    cbn. repeat split; try assumption. exists r. repeat split; assumption.
  - unfold outgoingAdd, queueAdd. cbn [account with_account outgoing set_payoutAmount].
    match goal with |- context [createClaim master ?s ?w0] =>
      destruct (createClaim_cell s w0) as (r & Hres & Hnone & Hsome & Hout & _ & Hdq & Htx)
    end.
    destruct (createClaim master (outgoing (account w)) _) as [r1 w1].
    cbn [fst snd] in *. subst r1. cbn.
    cbn in Hdq. rewrite Hq in Hdq.
    repeat split; try assumption.
    destruct (outgoing (account w)) as [c|].
    + destruct (Hsome c eq_refl) as (c' & -> & Hd). exists c'. split; [reflexivity|exact Hd].
    + rewrite Hnone; reflexivity.
Qed.

Lemma handlePrepareResponse_fulfill_run amount w :
  depositQueue w = None ->
  handlePrepareResponse master amount Fulfill w =
  let owed := payableBalance (account w) + amount in
  let w1 :=
    with_account
      (fun a => set_payoutAmount (payoutAmount a + Z.max 0 owed) a)
      (with_account (fun a => set_payableBalance (payableBalance a + amount) a)
         (set_log ((Debug, "Received a FULFILL in response to forwarded PREPARE: credited")
                   :: log w) w)) in
  match createClaim master (outgoing (account w)) w1 with
  | (Ok s, w2) => (Ok tt, with_account (set_outgoing s) w2)
  | (Throw e, w2) =>
      (Ok tt, set_log ((Debug, "Error queueing outgoing settlement: ") :: log w2) w2)
  end.
Proof.
  intros Hq.
  unfold handlePrepareResponse, sendMoney, bind, catch, get, logAt, modify, ret.
  cbn beta iota zeta.
  cbn [depositQueue with_account set_log account payableBalance payoutAmount
       set_payableBalance set_payoutAmount].
  rewrite Hq. cbn beta iota.
  unfold outgoingAdd, queueAdd.
  cbn [account with_account set_log outgoing set_payableBalance set_payoutAmount].
  destruct (createClaim master _ _) as [[s|e] w2]; reflexivity.
Qed.

(** A fulfilled packet is settled in full at once when nothing is queued and
    the outgoing channel has room: with [owed] the payable balance after the
    packet, positive and within the channel's remaining capacity, the claim
    sent raises [spent] by exactly [owed] gwei, and both the payable balance
    and the payout amount end at zero. *)
Theorem handlePrepareResponse_settles_to_zero amount c w :
  depositQueue w = None ->
  outgoing (account w) = Some c ->
  payoutAmount (account w) = 0 ->
  let owed := payableBalance (account w) + amount in
  0 < owed ->
  gweiToWei owed <= remainingInChannel c ->
  let w' := snd (handlePrepareResponse master amount Fulfill w) in
  payableBalance (account w') = 0 /\
  payoutAmount (account w') = 0 /\
  outgoing (account w') = Some (signClaim master (spent c + gweiToWei owed) c) /\
  sent w' = MsgMachinomy (channelId c)
              (Some (_sign master (contractAddress c) (channelId c)
                       (spent c + gweiToWei owed)))
              (spent c + gweiToWei owed) (contractAddress c) :: sent w.
Proof.
  intros Hq Hout Hpayout owed Howed Hcap w'. subst w'.
  rewrite (handlePrepareResponse_fulfill_run amount w Hq). cbn zeta.
  fold owed. rewrite Hout.
  match goal with |- context [createClaim master (Some c) ?w0] =>
    pose proof (createClaim_claims master c w0) as Hclaim
  end.
  cbn [account with_account set_log payoutAmount payableBalance
       set_payableBalance set_payoutAmount sent] in Hclaim.
  rewrite Hpayout in Hclaim.
  replace (0 + Z.max 0 owed) with owed in Hclaim by lia.
  assert (Hmin : Z.min (remainingInChannel c) (gweiToWei owed) = gweiToWei owed) by lia.
  rewrite Hmin in Hclaim.
  assert (Hdown : weiToGweiDown (gweiToWei owed) = owed).
  { unfold weiToGweiDown, gweiToWei. apply Z.quot_mul. discriminate. }
  rewrite Hdown in Hclaim.
  destruct Hclaim as (Hres & Hacc & Hsent).
  { unfold gweiToWei, GWEI. lia. }
  { unfold gweiToWei, GWEI in Hcap. lia. }
  destruct (createClaim master (Some c) _) as [r1 w1].
  cbn [fst snd] in *. subst r1. cbn beta iota. cbn [fst snd].
  cbn [account with_account sent]. rewrite Hacc, Hsent.
  cbn [payableBalance payoutAmount outgoing set_outgoing set_payableBalance
       set_payoutAmount].
  fold owed. repeat split; lia.
Qed.

Lemma handlePrepareResponse_without_channel amount w :
  depositQueue w = None ->
  outgoing (account w) = None ->
  let w' := snd (handlePrepareResponse master amount Fulfill w) in
  fst (handlePrepareResponse master amount Fulfill w) = Ok tt /\
  payableBalance (account w') = payableBalance (account w) + amount /\
  payoutAmount (account w') =
    payoutAmount (account w) + Z.max 0 (payableBalance (account w) + amount) /\
  outgoing (account w') = None /\ depositQueue w' = None /\
  sent w' = sent w /\ transactions w' = transactions w.
Proof.
  intros Hq Hout w'. subst w'.
  rewrite (handlePrepareResponse_fulfill_run amount w Hq). cbn zeta.
  rewrite Hout.
  match goal with |- context [createClaim master None ?w0] =>
    destruct (createClaim_idle master None w0) as (Hres & Hacc & Hsent); [auto|];
    destruct (createClaim_cell None w0) as (r & _ & _ & _ & _ & _ & Hdq & Htx)
  end.
  destruct (createClaim master None _) as [r1 w1].
  cbn [fst snd] in *. subst r1. cbn beta iota. cbn [fst snd].
  cbn [account with_account sent depositQueue transactions].
  rewrite Hacc, Hsent, Hdq, Htx. cbn. rewrite Hq. repeat split.
Qed.

(** With no outgoing channel, every fulfilled packet adds the whole payable
    balance to the payout amount again, not only the packet's amount.  After
    [n] packets of [amount] each, the payable balance has grown by
    [n * amount] and the payout amount by
    [n * payable + n (n + 1) / 2 * amount]: it outgrows what is owed.
    Nothing is sent and no transaction is submitted. *)
Theorem fulfilledPackets_without_channel n : forall amount w,
  0 <= amount ->
  depositQueue w = None -> outgoing (account w) = None ->
  0 <= payableBalance (account w) ->
  let w' := snd (fulfilledPackets master n amount w) in
  fst (fulfilledPackets master n amount w) = Ok tt /\
  payableBalance (account w') = payableBalance (account w) + Z.of_nat n * amount /\
  2 * payoutAmount (account w') =
    2 * payoutAmount (account w)
    + 2 * Z.of_nat n * payableBalance (account w)
    + Z.of_nat n * (Z.of_nat n + 1) * amount /\
  sent w' = sent w /\ transactions w' = transactions w.
Proof.
  induction n as [|n IH]; intros amount w Ha Hq Hout Hp.
  - cbn. repeat split; lia.
  - cbn [fulfilledPackets]. unfold bind.
    pose proof (handlePrepareResponse_without_channel amount w Hq Hout)
      as (Hok & Hpay & Hpo & Hout' & Hq' & Hsent & Htx).
    destruct (handlePrepareResponse master amount Fulfill w) as [r1 w1].
    cbn [fst snd] in *. subst r1.
    destruct (IH amount w1 Ha Hq' Hout') as (Hok' & Hpay' & Hpo' & Hsent' & Htx'); [lia|].
    split; [exact Hok'|]. rewrite Hpay', Hpay. split; [lia|].
    rewrite Hsent', Htx', Hsent, Htx. split; [|split; reflexivity].
    rewrite Hpo'. rewrite Hpay.
    assert (Hmax : Z.max 0 (payableBalance (account w) + amount)
                   = payableBalance (account w) + amount) by lia.
    rewrite Hpo, Hmax. lia.
Qed.

(** A rejected packet changes no balance and submits nothing.  On a [T04]
    reject the latest outgoing claim, if the channel carries one, is sent
    again unchanged; on any other code, or without a claim, nothing is
    sent. *)
Theorem handlePrepareResponse_reject amount code w :
  let w' := snd (handlePrepareResponse master amount (Reject code) w) in
  fst (handlePrepareResponse master amount (Reject code) w) = Ok tt /\
  account w' = account w /\ transactions w' = transactions w /\
  depositQueue w' = depositQueue w /\
  match outgoing (account w) with
  | Some c =>
      if (eqs code "T04" && bool_decide (is_Some (signature c)))%bool
      then sent w' = MsgMachinomy (channelId c) (signature c) (spent c)
                       (contractAddress c) :: sent w
      else sent w' = sent w
  | None => sent w' = sent w
  end.
Proof.
  intros w'. subst w'.
  unfold handlePrepareResponse, hasClaim, sendClaim, sendMessage, bind, get,
    logAt, modify, ret.
  cbn beta iota. cbn [account set_log outgoing].
  destruct (outgoing (account w)) as [c|]; cbn beta iota.
  - destruct (eqs code "T04" && bool_decide (is_Some (signature c)))%bool;
      cbn; repeat split.
  - rewrite andb_false_r. cbn. repeat split.
Qed.

End ForwardedReplyProofs.

(** Our channel has 3 gwei left and nothing is owed; a fulfilled packet of
    2 gwei is settled at once by a claim for 4 gwei in all. *)
Lemma handlePrepareResponse_settles_to_zero_witness :
  payableBalance
    (account (snd (handlePrepareResponse Scenario.master 2 Fulfill
                     (with_account (set_outgoing (Some Scenario.outgoingChannel))
                        Scenario.world)))) = 0 /\
  option_map spent
    (outgoing
       (account (snd (handlePrepareResponse Scenario.master 2 Fulfill
                        (with_account (set_outgoing (Some Scenario.outgoingChannel))
                           Scenario.world))))) = Some 4000000000.
Proof.
  destruct (handlePrepareResponse_settles_to_zero Scenario.master 2
              Scenario.outgoingChannel
              (with_account (set_outgoing (Some Scenario.outgoingChannel))
                 Scenario.world))
    as (Hpayable & _ & Hout & _).
  - reflexivity.
  - reflexivity.
  - reflexivity.
  - reflexivity.
  - discriminate.
  - split; [exact Hpayable|]. rewrite Hout. reflexivity.
Defined.

(** Three packets of 10 gwei with no outgoing channel: 30 gwei are owed and
    60 are queued for payout. *)
Lemma fulfilledPackets_without_channel_witness :
  payableBalance (account (snd (fulfilledPackets Scenario.master 3 10 Scenario.world)))
  = 0 + 3 * 10 /\
  2 * payoutAmount (account (snd (fulfilledPackets Scenario.master 3 10 Scenario.world)))
  = 2 * 0 + 2 * 3 * 0 + 3 * (3 + 1) * 10.
Proof.
  destruct (fulfilledPackets_without_channel Scenario.master 3 10 Scenario.world)
    as (_ & Hpayable & Hpayout & _).
  - lia.
  - reflexivity.
  - reflexivity.
  - reflexivity.
  - split; [exact Hpayable | exact Hpayout].
Defined.

(** ** handleData: the peer's address *)

Section PeerAddressProofs.

Variable master : EthereumPlugin.
Variable moneyHandler : Z -> bool.
Variable dataHandler : Z -> AccountData -> Result IlpReply * AccountData.

(** An [info] message is always answered with this wallet's address,
    whatever it carries, and changes at most the linked address of the
    account.  An address once linked (and not empty) is never replaced; when
    the address changes, none was linked before and the new one is an
    address [getAddress] accepts. *)
Theorem handleData_info_links_once info w :
  let run := handleData master moneyHandler dataHandler (PInfo info) w in
  let before := ethereumAddress (account w) in
  let after := ethereumAddress (account (snd run)) in
  fst run = Ok [SubInfo (_wallet_address master)] /\
  sameButAddress (account w) (account (snd run)) /\
  store (snd run) = store w /\ sent (snd run) = sent w /\
  transactions (snd run) = transactions w /\
  (forall current, before = Some current -> current <> "" -> after = Some current) /\
  (after <> before ->
   (before = None \/ before = Some "") /\
   exists address, after = Some address /\ _isAddress master address = true).
Proof.
  intros run before after. subst run before after.
  destruct (handleData master moneyHandler dataHandler (PInfo info) w)
    as [r w'] eqn:Hrun.
  unfold handleData, linkEthereumAddress, JSON_parse, bind, catch, ret, throw, get,
    logAt, modify in Hrun.
  repeat split_run Hrun; end_run Hrun; bool_facts; subst;
    cbn [fst snd account store sent transactions set_log with_account
         set_ethereumAddress ethereumAddress];
    unfold sameButAddress;
    cbn [accountName receivableBalance payableBalance payoutAmount incoming
         outgoing set_ethereumAddress];
    repeat split; try congruence; eauto.
Qed.

End PeerAddressProofs.

(** ** handleData: the peer announces a deposit *)

Section DepositNoticeProofs.

Variable master : EthereumPlugin.
Variable moneyHandler : Z -> bool.
Variable dataHandler : Z -> AccountData -> Result IlpReply * AccountData.

Lemma checkForDeposit_run retries : forall c w r w',
  incoming (account w) = Some c ->
  checkForDeposit master retries c w = (r, w') ->
  r = Ok tt /\
  sameButIncoming (account w) (account w') /\
  store w' = store w /\ sent w' = sent w /\ transactions w' = transactions w /\
  moneyCalls w' = moneyCalls w /\
  (clock w <= clock w' <= clock w + 2 * retries)%nat /\
  exists c', incoming (account w') = Some c' /\ toppedUp c c' /\
    (value c' = value c \/
     exists t u, (clock w <= t < clock w')%nat /\
       channelAt master t (channelId c) = Some u /\ value c' = value u).
Proof.
  induction retries as [|n IH]; intros c w r w' Hc H.
  - cbn [checkForDeposit] in H. unfold logAt, modify in H. end_run H.
    cbn. unfold sameButIncoming, toppedUp. rewrite Hc.
    repeat split; try lia. exists c. repeat split; lia.
  - cbn [checkForDeposit] in H.
    unfold updateChannel, fetchChannel, incomingAdd, queueAdd, logAt, delay in H.
    unfold bind, ret, modify in H.
    cbn beta iota in H.
    destruct (channelAt master (clock w) (channelId c)) as [u|] eqn:Hu;
      cbn beta iota in H.
    + cbn [value] in H.
      destruct (value c <? value u) eqn:Hdep; cbn [negb] in H; cbn beta iota in H.
      * cbn [account set_clock incoming] in H. rewrite Hc in H. cbn beta iota in H.
        unfold eqs in H. rewrite !bool_decide_eq_true_2 in H by reflexivity.
        rewrite Z.eqb_refl in H. cbn [andb negb] in H. cbn beta iota in H.
        end_run H. cbn. unfold sameButIncoming, toppedUp. bool_facts.
        repeat split; try lia.
        eexists. split; [reflexivity|]. cbn.
        split; [repeat split; lia|].
        right. exists (clock w), u. split; [lia | split; [exact Hu | cbn [value]; lia]].
      * apply IH with (c := c) in H; [|exact Hc].
        cbn [account set_clock clock store sent transactions moneyCalls] in H.
        destruct H as (Hr & Hsame & Hst & Hsent & Htx & Hmc & Hclock & c' & Hc' & Htop & Hval).
        split; [exact Hr|]. split; [exact Hsame|]. split; [exact Hst|].
        split; [exact Hsent|]. split; [exact Htx|]. split; [exact Hmc|].
        split; [lia|].
        exists c'. split; [exact Hc'|]. split; [exact Htop|].
        destruct Hval as [Hval|(t & u' & Ht & Hu' & Hval)]; [now left|].
        right. exists t, u'. repeat split; try assumption; lia.
    + end_run H. cbn. unfold sameButIncoming, toppedUp. rewrite Hc.
      repeat split; try lia. exists c. repeat split; lia.
Qed.

(** A [channelDeposit] message is always answered with an empty response and
    touches nothing but the incoming channel, the clock and the log.  The
    chain is read at most 21 times.  The incoming channel keeps its identity
    and its claim; its value never decreases, and where it changes it is a
    value the chain showed for this channel during the call. *)
Theorem handleData_channelDeposit c w r w' :
  incoming (account w) = Some c ->
  handleData master moneyHandler dataHandler PChannelDeposit w = (r, w') ->
  r = Ok [] /\
  sameButIncoming (account w) (account w') /\
  store w' = store w /\ sent w' = sent w /\ transactions w' = transactions w /\
  moneyCalls w' = moneyCalls w /\
  (clock w <= clock w' <= clock w + 42)%nat /\
  exists c', incoming (account w') = Some c' /\ toppedUp c c' /\
    (value c' = value c \/
     exists t u, (clock w <= t < clock w')%nat /\
       channelAt master t (channelId c) = Some u /\ value c' = value u).
Proof.
  intros Hc H.
  unfold handleData, bind, get, catch, logAt, modify, ret in H.
  rewrite Hc in H. cbn beta iota in H.
  match type of H with context [checkForDeposit master 21 c ?w0] =>
    destruct (checkForDeposit master 21 c w0) as [r1 w1] eqn:Hrun;
    apply checkForDeposit_run in Hrun; [|exact Hc]
  end.
  destruct Hrun as (-> & Hrest). cbn beta iota in H. end_run H.
  cbn [account set_log store sent transactions moneyCalls clock] in Hrest.
  split; [reflexivity|]. exact Hrest.
Qed.

End DepositNoticeProofs.

(** The incoming channel of the scenario holds 5 gwei, 2 of them claimed.  The
    peer's deposit shows on-chain at time 4: the third look finds it and the
    cached value becomes 8 gwei, the claim staying as it was. *)
Lemma handleData_channelDeposit_witness :
  exists c',
    incoming (account (snd (handleData Timeline.master Scenario.moneyHandler
                              Scenario.dataHandler PChannelDeposit
                              Scenario.receiving))) = Some c' /\
    toppedUp Scenario.linked c' /\
    value c' = 8000000000.
Proof.
  destruct (handleData_channelDeposit Timeline.master Scenario.moneyHandler
              Scenario.dataHandler Scenario.linked Scenario.receiving
              (fst (handleData Timeline.master Scenario.moneyHandler
                      Scenario.dataHandler PChannelDeposit Scenario.receiving))
              (snd (handleData Timeline.master Scenario.moneyHandler
                      Scenario.dataHandler PChannelDeposit Scenario.receiving)))
    as (_ & _ & _ & _ & _ & _ & _ & c' & Hc' & Htop & _).
  - reflexivity.
  - vm_compute. reflexivity.
  - exists c'. split; [exact Hc'|]. split; [exact Htop|].
    assert (Hv : option_map value (Some c') = Some 8000000000).
    { rewrite <- Hc'. vm_compute. reflexivity. }
    injection Hv as Hv. exact Hv.
Defined.

(** ** refreshChannel *)

Section RefreshProofs.

Variable master : EthereumPlugin.

(** Polling a chain that is read through [view]. *)
Lemma refreshChannelFrom_polls fetch (view : nat -> option Channel) predicate :
  (forall w, fetch w = (Ok (view (clock w)), set_clock (S (clock w)) w)) ->
  forall retries w,
  let run := refreshChannelFrom retries fetch predicate w in
  ((exists k, (k < retries)%nat /\
      fst run = Ok (view (clock w + 2 * k)%nat) /\
      predicate (view (clock w + 2 * k)%nat) = true /\
      snd run = set_clock (clock w + 2 * k + 1) w /\
      forall i, (i < k)%nat -> predicate (view (clock w + 2 * i)%nat) = false)
   \/
   (fst run = Throw RefreshFailed /\
    snd run = set_clock (clock w + 2 * retries) w /\
    forall i, (i < retries)%nat -> predicate (view (clock w + 2 * i)%nat) = false)).
Proof.
  intros Hfetch. induction retries as [|n IH]; intros w; cbn zeta.
  - right. cbn. split; [reflexivity|]. split; [|intros i Hi; lia].
    destruct w; unfold set_clock; cbn. f_equal. lia.
  - cbn [refreshChannelFrom]. unfold bind, ret, delay, modify.
    rewrite Hfetch. cbn beta iota.
    destruct (predicate (view (clock w))) eqn:Hp.
    + left. exists 0%nat. cbn [fst snd].
      replace (clock w + 2 * 0)%nat with (clock w) by lia.
      split; [lia|]. split; [reflexivity|]. split; [exact Hp|].
      split; [|intros i Hi; lia]. destruct w; unfold set_clock; cbn. f_equal. lia.
    + cbn beta iota.
      match goal with |- context [refreshChannelFrom n fetch predicate ?w0] =>
        specialize (IH w0); cbn zeta in IH;
        destruct (refreshChannelFrom n fetch predicate w0) as [r1 w1]
      end.
      cbn [fst snd clock set_clock] in *.
      destruct IH as [(k & Hk & Hr & Hpk & Hw & Hbefore) | (Hr & Hw & Hbefore)].
      * left. exists (S k).
        replace (clock w + 2 * S k)%nat with (S (S (clock w)) + 2 * k)%nat by lia.
        split; [lia|]. split; [exact Hr|]. split; [exact Hpk|].
        split; [rewrite Hw; destruct w; unfold set_clock; cbn; f_equal; lia|].
        intros [|i] Hi.
        -- replace (clock w + 2 * 0)%nat with (clock w) by lia. exact Hp.
        -- replace (clock w + 2 * S i)%nat with (S (S (clock w)) + 2 * i)%nat by lia.
           apply Hbefore. lia.
      * right. split; [exact Hr|].
        split; [rewrite Hw; destruct w; unfold set_clock; cbn; f_equal; lia|].
        intros [|i] Hi.
        -- replace (clock w + 2 * 0)%nat with (clock w) by lia. exact Hp.
        -- replace (clock w + 2 * S i)%nat with (S (S (clock w)) + 2 * i)%nat by lia.
           apply Hbefore. lia.
Qed.

(** [refreshChannel] on a cached channel looks at the chain every other time
    step, up to 21 times, and returns the first refreshed state that
    satisfies the predicate; that state keeps the cached claim.  If none of
    the 21 does, it throws.  Nothing but the clock changes. *)
Theorem refreshChannel_first_match c predicate w :
  let run := refreshChannel (updateChannel master c) predicate w in
  (exists k, (k < 21)%nat /\
     fst run = Ok (refreshedAt master c (clock w + 2 * k)) /\
     predicate (refreshedAt master c (clock w + 2 * k)) = true /\
     snd run = set_clock (clock w + 2 * k + 1) w /\
     forall i, (i < k)%nat -> predicate (refreshedAt master c (clock w + 2 * i)) = false)
  \/
  (fst run = Throw RefreshFailed /\
   snd run = set_clock (clock w + 42) w /\
   forall i, (i < 21)%nat -> predicate (refreshedAt master c (clock w + 2 * i)) = false).
Proof.
  apply (refreshChannelFrom_polls (updateChannel master c) (refreshedAt master c)
           predicate (updateChannel_run master c) 21 w).
Qed.

End RefreshProofs.

(** ** Claiming the incoming channel *)

Section ClaimOutcomeProofs.

Variable master : EthereumPlugin.
Variable moneyHandler : Z -> bool.
Variable dataHandler : Z -> AccountData -> Result IlpReply * AccountData.

Lemma closed_predicate (r : option Channel) :
  negb (bool_decide (is_Some r)) = true -> r = None.
Proof.
  destruct r; [|reflexivity]. intros H. apply negb_true_iff in H.
  apply bool_decide_eq_false in H. exfalso. apply H. eauto.
Qed.

Lemma claimIfProfitable_cases requireDisputed authorize c w :
  incoming (account w) = Some c ->
  let run := claimIfProfitable master requireDisputed authorize w in
  let tx := TxClaim (channelId c) (spent c) (signature c) in
  sameButIncoming (account w) (account (snd run)) /\
  store (snd run) = store w /\ sent (snd run) = sent w /\
  moneyCalls (snd run) = moneyCalls w /\ depositQueue (snd run) = depositQueue w /\
  match refreshedAt master c (clock w) with
  | None =>
      fst run = Ok None /\ incoming (account (snd run)) = None /\
      transactions (snd run) = transactions w
  | Some u =>
      let proceed :=
        (negb (requireDisputed && negb (isDisputed u))
         && match authorize with
            | Some authorize => authorize u (_txFee master tx)
            | None => negb (spent c <=? _txFee master tx)
            end)%bool in
      if proceed then
        transactions (snd run) = tx :: transactions w /\
        ((fst run = Ok None /\ incoming (account (snd run)) = None) \/
         ((fst run = Throw TransactionFailed \/ fst run = Throw RefreshFailed) /\
          incoming (account (snd run)) = Some c))
      else
        fst run = Ok (Some u) /\ incoming (account (snd run)) = Some u /\
        transactions (snd run) = transactions w
  end.
Proof.
  intros Hc run tx. subst run tx.
  unfold claimIfProfitable, incomingAdd, queueAdd, claimIfProfitableReducer.
  rewrite Hc.
  unfold logAt, catch, bind, ret, modify, throw.
  rewrite updateChannel_run. cbn beta iota. unfold refreshedAt, sameButIncoming.
  destruct (channelAt master (clock w) (channelId c)) as [u|] eqn:Hu; cbn beta iota.
  2:{ cbn. repeat split. }
  cbn [channelId spent signature].
  set (updated := mkChannel _ _ _ _ _ _ _ _ _).
  destruct (requireDisputed && negb (isDisputed updated))%bool eqn:Hgate;
    cbn [negb andb]; cbn beta iota.
  { cbn. repeat split. }
  assert (Hsubmit : forall w0,
    account w0 = account w -> store w0 = store w -> sent w0 = sent w ->
    moneyCalls w0 = moneyCalls w -> depositQueue w0 = depositQueue w ->
    transactions w0 = transactions w ->
    let run :=
      (let (r, w') :=
         let (r, w') :=
             (let (r, w') := queueTransaction master
                               (TxClaim (channelId c) (spent c) (signature c)) w0 in
              match r with
              | Ok a => (Ok a, w')
              | Throw e =>
                  (Throw e, set_log ((Error, "Failed to claim channel:") :: log w') w')
              end) in
           match r with
           | Ok _ =>
               let (r0, w'0) :=
                 refreshChannel (updateChannel master updated)
                   (fun c0 : option Channel => negb (bool_decide (is_Some c0))) w' in
               match r0 with
               | Ok a0 =>
                   (Ok a0,
                    set_log ((Debug, "Successfully claimed incoming channel")
                             :: log w'0) w'0)
               | Throw e => (Throw e, w'0)
               end
           | Throw e => (Throw e, w')
           end in
         match r with
         | Ok s => (Ok s, with_account (set_incoming s) w')
         | Throw e => (Throw e, w')
         end) in
    (accountName (account (snd run)) = accountName (account w) /\
     receivableBalance (account (snd run)) = receivableBalance (account w) /\
     payableBalance (account (snd run)) = payableBalance (account w) /\
     payoutAmount (account (snd run)) = payoutAmount (account w) /\
     ethereumAddress (account (snd run)) = ethereumAddress (account w) /\
     outgoing (account (snd run)) = outgoing (account w)) /\
    store (snd run) = store w /\ sent (snd run) = sent w /\
    moneyCalls (snd run) = moneyCalls w /\ depositQueue (snd run) = depositQueue w /\
    transactions (snd run)
    = TxClaim (channelId c) (spent c) (signature c) :: transactions w /\
    ((fst run = Ok None /\ incoming (account (snd run)) = None) \/
     ((fst run = Throw TransactionFailed \/ fst run = Throw RefreshFailed) /\
      incoming (account (snd run)) = Some c))).
  { intros w0 Hacc Hst Hsent Hmc Hdq Htx. cbn zeta. unfold queueTransaction.
    destruct (_txConfirms master (clock w0) _); cbn beta iota.
    - match goal with |- context [refreshChannel ?f ?p ?w1] =>
        pose proof (refreshChannelFrom_polls f (refreshedAt master updated) p
                      (updateChannel_run master updated) 21 w1) as Hpoll
      end.
      cbn zeta in Hpoll. unfold refreshChannel.
      destruct (refreshChannelFrom 21 _ _ _) as [r1 w1]. cbn [fst snd] in Hpoll.
      destruct Hpoll as [(k & _ & -> & Hp & -> & _) | (-> & -> & _)].
      + apply closed_predicate in Hp. rewrite Hp. cbn.
        rewrite Hacc, Hst, Hsent, Hmc, Hdq, Htx. repeat split. left. split; reflexivity.
      + cbn. rewrite Hacc, Hst, Hsent, Hmc, Hdq, Htx, Hc. repeat split.
        right. split; [right|]; reflexivity.
    - cbn. rewrite Hacc, Hst, Hsent, Hmc, Hdq, Htx, Hc. repeat split.
      right. split; [left|]; reflexivity. }
  destruct authorize as [authorize|]; cbn beta iota.
  - destruct (authorize updated _) eqn:Hauth; cbn [negb]; cbn beta iota.
    2:{ cbn. repeat split. }
    apply Hsubmit; reflexivity.
  - destruct (spent c <=? _) eqn:Hfee; cbn [negb]; cbn beta iota.
    { cbn. repeat split. }
    apply Hsubmit; reflexivity.
Qed.

(** [claimIfProfitable], whatever its arguments, touches no balance, sends
    nothing and leaves the registry alone.  It submits at most one
    transaction, the claim of the cached channel with the cached [spent] and
    signature.  When it returns a channel, that channel carries the cached
    claim and nothing was submitted; once the claim is submitted, either the
    channel is confirmed closed and forgotten, or the call fails and the
    cached state stays. *)
Theorem claimIfProfitable_outcomes requireDisputed authorize w :
  let run := claimIfProfitable master requireDisputed authorize w in
  sameButIncoming (account w) (account (snd run)) /\
  store (snd run) = store w /\ sent (snd run) = sent w /\
  moneyCalls (snd run) = moneyCalls w /\ depositQueue (snd run) = depositQueue w /\
  match incoming (account w) with
  | None =>
      fst run = Ok None /\ incoming (account (snd run)) = None /\
      transactions (snd run) = transactions w
  | Some c =>
      let tx := TxClaim (channelId c) (spent c) (signature c) in
      match fst run with
      | Ok None => incoming (account (snd run)) = None
      | Ok (Some u) =>
          incoming (account (snd run)) = Some u /\ sameClaim c u /\
          transactions (snd run) = transactions w
      | Throw e =>
          incoming (account (snd run)) = Some c /\
          transactions (snd run) = tx :: transactions w /\
          (e = TransactionFailed \/ e = RefreshFailed)
      end /\
      (transactions (snd run) = transactions w \/
       transactions (snd run) = tx :: transactions w)
  end.
Proof.
  intros run. subst run.
  destruct (incoming (account w)) as [c|] eqn:Hc.
  - pose proof (claimIfProfitable_cases requireDisputed authorize c w Hc) as H.
    cbn zeta in H.
    destruct H as (Hacc & Hst & Hsent & Hmc & Hdq & H).
    split; [exact Hacc|]. split; [exact Hst|]. split; [exact Hsent|].
    split; [exact Hmc|]. split; [exact Hdq|].
    cbn zeta. unfold refreshedAt in H.
    destruct (channelAt master (clock w) (channelId c)) as [u|].
    + match type of H with (if ?b then _ else _) => destruct b end.
      * destruct H as (Htx & [(-> & Hin) | ([-> | ->] & Hin)]);
          (split; [|right; exact Htx]); auto.
      * destruct H as (-> & Hin & Htx).
        split; [|left; exact Htx]. split; [exact Hin|]. split; [|exact Htx].
        unfold sameClaim. cbn. auto.
    + destruct H as (-> & Hin & Htx). split; [exact Hin | left; exact Htx].
  - unfold claimIfProfitable, incomingAdd, queueAdd, claimIfProfitableReducer, ret.
    rewrite Hc. unfold sameButIncoming. cbn. repeat split.
Qed.


End ClaimOutcomeProofs.


(** ** The channel watcher *)

Section WatcherProofs.

Variable master : EthereumPlugin.

(** One firing of the channel watcher never fails and touches no balance.
    With no incoming channel it stops the watcher.  While the channel is
    on-chain and undisputed it only reads the chain.  Once the channel is
    gone or disputed it looks again: a channel that is gone is forgotten; a
    disputed one is claimed exactly when the fee is below the cached
    [spent], after which it is forgotten or, if the claim failed, cached as
    before; otherwise the refreshed state is cached and nothing is
    submitted. *)
Theorem channelWatcherTick_outcomes w :
  let run := channelWatcherTick master w in
  fst run = Ok tt /\
  sameButIncoming (account w) (account (snd run)) /\
  store (snd run) = store w /\ sent (snd run) = sent w /\
  moneyCalls (snd run) = moneyCalls w /\ depositQueue (snd run) = depositQueue w /\
  match incoming (account w) with
  | None =>
      watcher (snd run) = false /\ incoming (account (snd run)) = None /\
      transactions (snd run) = transactions w /\ clock (snd run) = clock w
  | Some c =>
      let tx := TxClaim (channelId c) (spent c) (signature c) in
      let closedOrClosing :=
        match refreshedAt master c (clock w) with
        | None => true
        | Some u => isDisputed u
        end in
      if closedOrClosing then
        match refreshedAt master c (S (clock w)) with
        | None =>
            incoming (account (snd run)) = None /\
            transactions (snd run) = transactions w
        | Some u =>
            if (isDisputed u && negb (spent c <=? _txFee master tx))%bool then
              transactions (snd run) = tx :: transactions w /\
              (incoming (account (snd run)) = None \/
               incoming (account (snd run)) = Some c)
            else
              incoming (account (snd run)) = Some u /\
              transactions (snd run) = transactions w
        end
      else snd run = set_clock (S (clock w)) w
  end.
Proof.
  intros run. subst run.
  unfold channelWatcherTick, bind, get, catch, logAt, modify, ret.
  destruct (incoming (account w)) as [c|] eqn:Hc; cbn beta iota.
  2:{ unfold sameButIncoming. cbn. rewrite Hc. repeat split. }
  rewrite updateChannel_run. cbn beta iota zeta.
  fold (refreshedAt master c (clock w)).
  destruct (match refreshedAt master c (clock w) with
            | Some u => isDisputed u | None => true end) eqn:Hclosing.
  - match goal with |- context [claimIfProfitable master true None ?w0] =>
      pose proof (claimIfProfitable_cases master true None c w0 Hc) as H;
      destruct (claimIfProfitable master true None w0) as [r1 w1]
    end.
    cbn zeta in H. cbn [fst snd clock set_clock account store sent moneyCalls
                        depositQueue transactions andb] in H.
    destruct H as (Hacc & Hst & Hsent & Hmc & Hdq & H).
    assert (Hframe : sameButIncoming (account w) (account w1) /\
                     store w1 = store w /\ sent w1 = sent w /\
                     moneyCalls w1 = moneyCalls w /\ depositQueue w1 = depositQueue w)
      by auto.
    destruct (refreshedAt master c (S (clock w))) as [u|].
    + rewrite negb_involutive in H.
      destruct (isDisputed u && negb (spent c <=? _))%bool.
      * destruct H as (Htx & [(-> & Hin) | ([-> | ->] & Hin)]);
          cbn beta iota; cbn [fst snd account set_log store sent moneyCalls
                              depositQueue transactions];
          (split; [reflexivity|]); repeat (split; [apply Hframe|]); auto.
      * destruct H as (-> & Hin & Htx). cbn beta iota. cbn [fst snd].
        split; [reflexivity|]. repeat (split; [apply Hframe|]). auto.
    + destruct H as (-> & Hin & Htx). cbn beta iota. cbn [fst snd].
      split; [reflexivity|]. repeat (split; [apply Hframe|]). auto.
  - unfold sameButIncoming. cbn. repeat split.
Qed.

End WatcherProofs.

(** ** requestClose *)

Section RequestCloseProofs.

Variable master : EthereumPlugin.
Variable closeAcknowledged : nat -> bool.

(** [requestClose] never fails, never submits a transaction and touches no
    balance.  With an outgoing channel it sends the peer one [requestClose]
    message.  It forgets the channel only when the peer answered and the
    chain showed the channel closed at one of 21 looks; in every other case
    the cached channel stays exactly as it was. *)
Theorem requestClose_outcomes w :
  let run := requestClose master closeAcknowledged w in
  sameButOutgoing (account w) (account (snd run)) /\
  store (snd run) = store w /\ transactions (snd run) = transactions w /\
  moneyCalls (snd run) = moneyCalls w /\ depositQueue (snd run) = depositQueue w /\
  match outgoing (account w) with
  | None =>
      fst run = Ok None /\ outgoing (account (snd run)) = None /\
      sent (snd run) = sent w
  | Some c =>
      sent (snd run) = MsgRequestClose :: sent w /\
      ((fst run = Ok None /\ outgoing (account (snd run)) = None /\
        closeAcknowledged (clock w) = true /\
        exists k, (k < 21)%nat /\
          channelAt master (clock w + 2 * k) (channelId c) = None) \/
       (fst run = Ok (Some c) /\ outgoing (account (snd run)) = Some c))
  end.
Proof.
  intros run. subst run.
  unfold requestClose, outgoingAdd, queueAdd, awaitMessage.
  unfold logAt, catch, bind, get, modify, ret. unfold sameButOutgoing.
  destruct (outgoing (account w)) as [c|] eqn:Hc; cbn beta iota.
  2:{ cbn. repeat split. }
  destruct (closeAcknowledged (clock w)) eqn:Hack; cbn beta iota.
  2:{ cbn. repeat split. right. split; reflexivity. }
  match goal with |- context [refreshChannel ?f ?p ?w1] =>
    pose proof (refreshChannelFrom_polls f (refreshedAt master c) p
                  (updateChannel_run master c) 21 w1) as Hpoll
  end.
  cbn zeta in Hpoll. unfold refreshChannel.
  destruct (refreshChannelFrom 21 _ _ _) as [r1 w1]. cbn [fst snd] in Hpoll.
  destruct Hpoll as [(k & Hk & -> & Hp & -> & _) | (-> & -> & _)].
  - apply closed_predicate in Hp. rewrite Hp.
    assert (Hclosed : channelAt master (clock w + 2 * k) (channelId c) = None).
    { unfold refreshedAt in Hp. cbn [clock set_sent] in Hp.
      destruct (channelAt master (clock w + 2 * k) (channelId c));
        [discriminate|reflexivity]. }
    cbn. repeat split. left. repeat split. exists k. split; [exact Hk|exact Hclosed].
  - cbn. repeat split. right. split; reflexivity.
Qed.

End RequestCloseProofs.

(** ** Opening and funding the outgoing channel *)

Section FundingProofs.

Variable master : EthereumPlugin.
Variable infoResponse : nat -> Result (option Buffer).
Variable generateChannelId : nat -> string.

Lemma fetchEthereumAddress_run w :
  exists w1,
    fetchEthereumAddress master infoResponse w = (Ok tt, w1) /\
    sameButAddress (account w) (account w1) /\
    store w1 = store w /\ moneyCalls w1 = moneyCalls w /\
    depositQueue w1 = depositQueue w /\ transactions w1 = transactions w /\
    clock w1 = clock w /\
    (sent w1 = sent w \/ sent w1 = MsgInfo (_wallet_address master) :: sent w).
Proof.
  destruct (fetchEthereumAddress master infoResponse w) as [r w1] eqn:Hrun.
  unfold fetchEthereumAddress, linkEthereumAddress, JSON_parse, bind, catch, ret,
    throw, get, logAt, modify in Hrun.
  repeat split_run Hrun; end_run Hrun; eexists; (split; [reflexivity|]);
    unfold sameButAddress; cbn; repeat split; auto.
Qed.

Lemma openChannel_cases amount authorize w :
  let run := openChannel master infoResponse generateChannelId amount authorize w in
  let id := generateChannelId (clock w) in
  let peerAddress :=
    match ethereumAddress (account (snd run)) with Some a => a | None => "" end in
  let tx := TxOpen id peerAddress (_outgoingDisputePeriod master) amount in
  sameButAddress (account w) (account (snd run)) /\
  store (snd run) = store w /\ moneyCalls (snd run) = moneyCalls w /\
  depositQueue (snd run) = depositQueue w /\
  match fst run with
  | Ok None => peerAddress = "" /\ transactions (snd run) = transactions w
  | Ok (Some c) =>
      peerAddress <> "" /\ authorize (_txFee master tx) = true /\
      transactions (snd run) = tx :: transactions w /\
      (exists t u, (clock w < t)%nat /\ channelAt master t id = Some u /\
                   c = signClaim master 0 u) /\
      channelId c = id /\ spent c = 0 /\
      hd_error (sent (snd run))
      = Some (MsgMachinomy id (Some (_sign master (_contract_address master) id 0))
                0 (_contract_address master))
  | Throw e =>
      peerAddress <> "" /\
      ((e = AuthorizeRejected /\ authorize (_txFee master tx) = false /\
        transactions (snd run) = transactions w) \/
       ((e = TransactionFailed \/ e = RefreshFailed) /\
        authorize (_txFee master tx) = true /\
        transactions (snd run) = tx :: transactions w))
  end.
Proof.
  intros run id peerAddress tx. subst run id peerAddress tx.
  destruct (openChannel master infoResponse generateChannelId amount authorize w)
    as [r w'] eqn:Hrun.
  cbn [fst snd].
  unfold openChannel in Hrun. unfold bind at 1 in Hrun.
  destruct (fetchEthereumAddress_run w)
    as (w1 & Hf & Hacc & Hst & Hmc & Hdq & Htx & Hclock & Hsent).
  rewrite Hf in Hrun. cbn beta iota in Hrun.
  unfold sendClaim, sendMessage, logAt in Hrun.
  unfold bind, get, ret, modify, throw, catch in Hrun. cbn beta iota in Hrun.
  destruct (ethereumAddress (account w1)) as [a|] eqn:Ha; cbn beta iota in Hrun.
  2:{ end_run Hrun. cbn. rewrite Ha. repeat split; auto; apply Hacc. }
  destruct (eqs a "") eqn:Hempty; cbn [negb] in Hrun; cbn beta iota in Hrun.
  { bool_facts. end_run Hrun. cbn. rewrite Ha. repeat split; auto; apply Hacc. }
  bool_facts. rewrite Hclock in Hrun.
  destruct (authorize _) eqn:Hauth; cbn beta iota in Hrun.
  2:{ end_run Hrun. rewrite Ha. repeat split; auto; apply Hacc. }
  unfold queueTransaction in Hrun. cbn [clock set_log] in Hrun.
  destruct (_txConfirms master _ _) eqn:Hconfirm; cbn beta iota in Hrun.
  2:{ end_run Hrun. cbn. rewrite Ha. repeat split; auto; try apply Hacc.
      right. rewrite Htx. auto. }
  match type of Hrun with context [refreshChannel ?f ?p ?w2] =>
    pose proof (refreshChannelFrom_polls f
                  (fun t => channelAt master t (generateChannelId (clock w))) p
                  (fun w0 => eq_refl) 21 w2) as Hpoll;
    cbn zeta in Hpoll; unfold refreshChannel in Hrun;
    destruct (refreshChannelFrom 21 f p w2) as [r1 w2']
  end.
  cbn [fst snd clock set_clock set_transactions set_log] in Hpoll.
  destruct Hpoll as [(k & Hk & -> & Hp & -> & _) | (-> & -> & _)].
  - apply bool_decide_eq_true in Hp. destruct Hp as [u Hu].
    rewrite Hu in Hrun. cbn beta iota in Hrun. end_run Hrun.
    cbn. rewrite Ha, Htx. repeat split; auto; try apply Hacc.
    + exists (S (clock w1) + 2 * k)%nat, u. split; [lia|].
      split; [exact Hu|reflexivity].
    + unfold channelAt in Hu. destruct (_channels master _ _); [|discriminate].
      injection Hu as <-. reflexivity.
    + unfold channelAt in Hu. destruct (_channels master _ _); [|discriminate].
      injection Hu as <-. reflexivity.
  - cbn beta iota in Hrun. end_run Hrun. cbn. rewrite Ha, Htx. repeat split; auto; apply Hacc.
Qed.

(** [openChannel] touches no balance.  It submits at most one transaction,
    and only after an address of the peer is linked and [authorize] has
    accepted the fee: the opening of a channel to that address, for the
    given amount and the configured dispute period.  When it returns a
    channel, the chain showed that channel, its [spent] is zero, it is signed
    by this plugin for zero, and that claim was the last message sent.  It
    returns no channel, and submits nothing, when no address is linked. *)
Theorem openChannel_outcomes amount authorize w :
  let run := openChannel master infoResponse generateChannelId amount authorize w in
  let id := generateChannelId (clock w) in
  let peerAddress :=
    match ethereumAddress (account (snd run)) with Some a => a | None => "" end in
  let tx := TxOpen id peerAddress (_outgoingDisputePeriod master) amount in
  sameButAddress (account w) (account (snd run)) /\
  store (snd run) = store w /\ moneyCalls (snd run) = moneyCalls w /\
  depositQueue (snd run) = depositQueue w /\
  match fst run with
  | Ok None => peerAddress = "" /\ transactions (snd run) = transactions w
  | Ok (Some c) =>
      peerAddress <> "" /\ authorize (_txFee master tx) = true /\
      transactions (snd run) = tx :: transactions w /\
      (exists t u, (clock w < t)%nat /\ channelAt master t id = Some u /\
                   c = signClaim master 0 u) /\
      channelId c = id /\ spent c = 0 /\
      hd_error (sent (snd run))
      = Some (MsgMachinomy id (Some (_sign master (_contract_address master) id 0))
                0 (_contract_address master))
  | Throw e =>
      peerAddress <> "" /\
      ((e = AuthorizeRejected /\ authorize (_txFee master tx) = false /\
        transactions (snd run) = transactions w) \/
       ((e = TransactionFailed \/ e = RefreshFailed) /\
        authorize (_txFee master tx) = true /\
        transactions (snd run) = tx :: transactions w))
  end.
Proof. apply openChannel_cases. Qed.


End FundingProofs.

(** ** depositToChannel: the channel stays covered *)

Section DepositSolvencyProofs.

Variable master : EthereumPlugin.

Lemma settlementFrame_refl w : settlementFrame w w.
Proof. repeat split. Qed.

Lemma settlementFrame_trans w1 w2 w3 :
  settlementFrame w1 w2 -> settlementFrame w2 w3 -> settlementFrame w1 w3.
Proof. unfold settlementFrame. intuition congruence. Qed.

Lemma createClaim_solvent cached w :
  let w' := snd (createClaim master cached w) in
  settlementFrame w w' /\ depositQueue w' = depositQueue w /\
  outgoing (account w') = outgoing (account w) /\
  exists r, fst (createClaim master cached w) = Ok r /\
    (cached = None -> r = None) /\
    forall c, cached = Some c ->
      exists c', r = Some c' /\ (solvent c -> solvent c').
Proof.
  unfold createClaim, autoFundOutgoingChannel, sendClaim, sendMessage,
    bind, ret, get, logAt, modify. cbn beta iota.
  repeat split_goal; bool_facts; cbn [fst snd];
    (split; [repeat split|]); (split; [reflexivity|]); (split; [reflexivity|]);
    (eexists; split; [reflexivity|]); (split; [congruence|]);
    intros c' Hc; first [discriminate Hc | injection Hc as <- | subst];
    (eexists; split; [reflexivity|]);
    unfold solvent, signClaim, remainingInChannel, spentFromChannel in *;
    cbn [value spent]; lia.
Qed.

Lemma sendMoney_solvent c amount w :
  depositQueue w = Some (Some c) ->
  let w' := snd (sendMoney master amount w) in
  settlementFrame w w' /\ outgoing (account w') = outgoing (account w) /\
  exists c', depositQueue w' = Some (Some c') /\ (solvent c -> solvent c').
Proof.
  intros Hq. unfold sendMoney, bind, get, modify, ret. cbn beta iota.
  cbn [depositQueue with_account]. rewrite Hq. cbn beta iota.
  unfold depositQueueAdd, queueAdd. cbn [depositQueue with_account]. rewrite Hq.
  match goal with |- context [createClaim master ?s ?w0] =>
    destruct (createClaim_solvent s w0) as (Hf & Hdq & Hout & r & Hres & _ & Hsome)
  end.
  destruct (createClaim master (Some c) _) as [r1 w1].
  cbn [fst snd] in *. subst r1. cbn beta iota. cbn [snd].
  destruct (Hsome c eq_refl) as (c' & -> & Hs).
  split; [|split; [exact Hout|]].
  - unfold settlementFrame in *. cbn in *. exact Hf.
  - exists c'. split; [reflexivity | exact Hs].
Qed.

Lemma concurrently_solvent pending : forall c w,
  depositQueue w = Some (Some c) ->
  let w' := snd (concurrently master pending w) in
  settlementFrame w w' /\ outgoing (account w') = outgoing (account w) /\
  exists c', depositQueue w' = Some (Some c') /\ (solvent c -> solvent c').
Proof.
  induction pending as [|amount rest IH]; intros c w Hq; cbn zeta.
  - split; [apply settlementFrame_refl|]. split; [reflexivity|].
    exists c. split; [exact Hq | auto].
  - cbn [concurrently]. unfold bind, catch.
    destruct (sendMoney_side master c amount w Hq) as (c0 & Hok & _).
    destruct (sendMoney_solvent c amount w Hq) as (Hf & Hout & c1 & Hq1 & Hs1).
    destruct (sendMoney master amount w) as [r w1]. cbn [fst snd] in *. subst r.
    destruct (IH c1 w1 Hq1) as (Hf' & Hout' & c' & Hq' & Hs').
    split; [eapply settlementFrame_trans; eassumption|].
    split; [congruence|]. exists c'. split; [exact Hq' | auto].
Qed.

Lemma depositSideQueue_solvent channel pending w :
  let w' := snd (depositSideQueue master channel pending w) in
  settlementFrame w w' /\ outgoing (account w') = outgoing (account w) /\
  exists forked, depositQueue w' = Some (Some forked) /\
    (solvent channel -> solvent forked).
Proof.
  unfold depositSideQueue, bind, catch, modify, ret. cbn beta iota.
  unfold depositQueueAdd, queueAdd. cbn [depositQueue set_depositQueue].
  match goal with |- context [createClaim master ?s ?w0] =>
    destruct (createClaim_solvent s w0) as (Hf & Hdq & Hout & r & Hres & _ & Hsome)
  end.
  destruct (createClaim master (Some channel) _) as [r1 w1].
  cbn [fst snd] in *. subst r1. cbn beta iota.
  destruct (Hsome channel eq_refl) as (c1 & -> & Hs1).
  match goal with |- context [concurrently master pending ?w0] =>
    destruct (concurrently_solvent pending c1 w0 eq_refl)
      as (Hf' & Hout' & c' & Hq' & Hs')
  end.
  split; [|split].
  - eapply settlementFrame_trans; [|exact Hf'].
    unfold settlementFrame in *. cbn in *. exact Hf.
  - rewrite Hout'. cbn. exact Hout.
  - exists c'. split; [exact Hq' | auto].
Qed.

Lemma depositAttempt_cases channel deposit authorize w :
  let run := depositAttempt master channel deposit authorize w in
  let tx := TxDeposit (channelId channel) deposit in
  account (snd run) = account w /\ store (snd run) = store w /\
  sent (snd run) = sent w /\ moneyCalls (snd run) = moneyCalls w /\
  depositQueue (snd run) = depositQueue w /\
  if authorize (_txFee master tx) then
    transactions (snd run) = tx :: transactions w /\
    ((exists updated,
        fst run = Ok (Some updated) /\
        value updated = value channel + deposit /\ sameClaim channel updated) \/
     fst run = Throw TransactionFailed \/ fst run = Throw RefreshFailed)
  else
    fst run = Throw AuthorizeRejected /\ transactions (snd run) = transactions w.
Proof.
  unfold depositAttempt, logAt, queueTransaction, bind, throw, ret, modify.
  cbn beta iota zeta.
  destruct (authorize _); cbn beta iota.
  2:{ cbn. repeat split. }
  cbn [clock set_log].
  destruct (_txConfirms master _ _); cbn beta iota.
  2:{ cbn. repeat split. auto. }
  match goal with |- context [refreshChannel ?f ?p ?w1] =>
    pose proof (refreshChannelFrom_polls f (refreshedAt master channel) p
                  (updateChannel_run master channel) 21 w1) as Hpoll
  end.
  cbn zeta in Hpoll. unfold refreshChannel.
  destruct (refreshChannelFrom 21 _ _ _) as [r1 w1]. cbn [fst snd] in Hpoll.
  destruct Hpoll as [(k & Hk & -> & Hp & -> & _) | (-> & -> & _)].
  - cbn. repeat split. left.
    unfold refreshedAt in *.
    destruct (channelAt master _ (channelId channel)) as [u|]; [|discriminate].
    eexists. split; [reflexivity|]. apply Z.eqb_eq in Hp. cbn in Hp.
    split; [exact Hp|]. unfold sameClaim. cbn. auto.
  - cbn. repeat split. auto.
Qed.

Lemma depositToChannel_cases channel deposit authorize pending w :
  let run := depositToChannel master channel deposit authorize pending w in
  let tx := TxDeposit (channelId channel) deposit in
  receivableBalance (account (snd run)) = receivableBalance (account w) /\
  incoming (account (snd run)) = incoming (account w) /\
  store (snd run) = store w /\
  if _providerReady master (clock w) then
    exists c',
      fst run = Ok (Some c') /\
      (solvent channel -> 0 <= deposit -> solvent c') /\
      channelId c' = channelId channel /\
      contractAddress c' = contractAddress channel /\
      spent channel <= spent c' /\
      depositQueue (snd run) = None /\
      if authorize (_txFee master tx) then
        transactions (snd run) = tx :: transactions w /\
        (value c' = value channel + deposit \/ value c' = value channel)
      else
        transactions (snd run) = transactions w /\ value c' = value channel
  else
    fst run = Throw ProviderError /\
    transactions (snd run) = transactions w /\
    outgoing (account (snd run)) = outgoing (account w) /\
    exists forked,
      depositQueue (snd run) = Some (Some forked) /\
      descends channel forked /\ (solvent channel -> solvent forked).
Proof.
  intros run tx. subst run tx.
  destruct (depositSideQueue_solvent channel pending w)
    as (Hf & Hout & forked' & Hq & Hs).
  cbn zeta in Hf, Hout, Hq.
  destruct Hf as (_ & Hrecv & _ & Hin & Hstore & Hclock & _ & Htx & _).
  destruct (depositSideQueue_run master channel pending w)
    as (forked & _ & Hq' & Hd).
  rewrite Hq in Hq'. injection Hq' as <-.
  destruct (_providerReady master (clock w)) eqn:Hready.
  - rewrite <- Hclock in Hready.
    destruct (depositToChannel_run master channel deposit authorize pending w Hready)
      as (forked & Hside & _ & Hrun).
    cbn zeta in Hside, Hrun. rewrite Hrun.
    unfold sideState in Hside. rewrite Hq in Hside. injection Hside as <-.
    pose proof (depositAttempt_cases channel deposit authorize
                  (snd (depositSideQueue master channel pending w))) as Hcases.
    cbn zeta in Hcases.
    destruct Hcases as (Hacc & Hst & _ & _ & _ & Hcases).
    destruct Hd as (Hid & Hcontract & Hvalue & Hspent).
    destruct (depositAttempt master channel deposit authorize _) as [r1 w2].
    cbn [fst snd] in Hcases, Hacc, Hst.
    destruct (authorize _).
    + destruct Hcases as (Htx' & [(updated & -> & Hv & Hclaim) | [-> | ->]]).
      * cbn. rewrite Hacc, Hst. repeat (split; [assumption|]).
        exists (mergeDeposit updated forked').
        destruct Hclaim as (Hid' & Hcontract' & _).
        split; [reflexivity|]. split.
        { intros Hsolvent Hdeposit. specialize (Hs Hsolvent).
          unfold solvent in *. cbn. lia. }
        cbn. rewrite Htx', Htx, Hv.
        repeat split; try congruence; lia.
      * cbn. rewrite Hacc, Hst. repeat (split; [assumption|]).
        exists forked'. split; [reflexivity|].
        split; [intros; apply Hs; assumption|].
        cbn. rewrite Htx', Htx.
        repeat split; try congruence; lia.
      * cbn. rewrite Hacc, Hst. repeat (split; [assumption|]).
        exists forked'. split; [reflexivity|].
        split; [intros; apply Hs; assumption|].
        cbn. rewrite Htx', Htx.
        repeat split; try congruence; lia.
    + destruct Hcases as (-> & Htx').
      cbn. rewrite Hacc, Hst. repeat (split; [assumption|]).
      exists forked'. split; [reflexivity|].
      split; [intros; apply Hs; assumption|].
      cbn. rewrite Htx', Htx.
      repeat split; try congruence; lia.
  - rewrite <- Hclock in Hready.
    rewrite (depositToChannel_outage master channel deposit authorize pending w Hready).
    cbn [fst snd]. repeat (split; [assumption|]).
    split; [reflexivity|]. split; [exact Htx|]. split; [exact Hout|].
    exists forked'. split; [exact Hq|]. split; [exact Hd | exact Hs].
Qed.

(** A deposit keeps the outgoing channel covered.  Take a channel with
    [0 <= spent <= value] and a deposit that is not negative.  If awaiting
    the contract handle and the gas price resolves, [depositToChannel]
    returns a channel: the same channel, again with [0 <= spent <= value],
    and with [spent] not lowered by the claims signed meanwhile.  Its value
    is the old one plus the deposit when the deposit went through, and the
    old one otherwise; the deposit transaction is submitted only if
    [authorize] accepted its fee, and the side-queue is gone afterwards.  If
    that await rejects, the method throws before anything is submitted and
    the side-queue stays in place, holding a covered state of the same
    channel.  Either way the receivable balance, the registry and the
    incoming channel are untouched. *)
Theorem depositToChannel_keeps_channel_covered channel deposit authorize pending w :
  solvent channel -> 0 <= deposit ->
  let run := depositToChannel master channel deposit authorize pending w in
  let tx := TxDeposit (channelId channel) deposit in
  receivableBalance (account (snd run)) = receivableBalance (account w) /\
  incoming (account (snd run)) = incoming (account w) /\
  store (snd run) = store w /\
  if _providerReady master (clock w) then
    exists c',
      fst run = Ok (Some c') /\ solvent c' /\
      channelId c' = channelId channel /\
      contractAddress c' = contractAddress channel /\
      spent channel <= spent c' /\
      depositQueue (snd run) = None /\
      if authorize (_txFee master tx) then
        transactions (snd run) = tx :: transactions w /\
        (value c' = value channel + deposit \/ value c' = value channel)
      else
        transactions (snd run) = transactions w /\ value c' = value channel
  else
    fst run = Throw ProviderError /\
    transactions (snd run) = transactions w /\
    exists forked,
      depositQueue (snd run) = Some (Some forked) /\
      descends channel forked /\ solvent forked.
Proof.
  intros Hsolvent Hdeposit run tx. subst run tx.
  pose proof (depositToChannel_cases channel deposit authorize pending w) as H.
  cbn zeta in H. destruct H as (Hrecv & Hin & Hst & H).
  repeat (split; [assumption|]).
  destruct (_providerReady master (clock w)).
  - destruct H as (c' & Hres & Hs & Hrest).
    exists c'. split; [exact Hres|]. split; [exact (Hs Hsolvent Hdeposit)|].
    exact Hrest.
  - destruct H as (Hres & Htx & _ & forked & Hq & Hd & Hs).
    split; [exact Hres|]. split; [exact Htx|].
    exists forked. split; [exact Hq|]. split; [exact Hd | exact (Hs Hsolvent)].
Qed.

(** The merge, when awaiting the contract handle and the gas price
    resolves.  [forked] is what the side-queue reached: the channel with the
    claims signed while the deposit was pending.  When the deposit succeeds,
    the state returned to the outgoing queue has the identity and value of
    the refreshed on-chain channel, whose value is the old one plus the
    deposit, and [spent] and [signature] of [forked].  When authorisation,
    submission or confirmation fails, it is [forked] itself.  Either way the
    side-queue is gone. *)
Theorem depositToChannel_merges channel deposit authorize pending w :
  _providerReady master (clock w) = true ->
  let w1 := snd (depositSideQueue master channel pending w) in
  let run := depositToChannel master channel deposit authorize pending w in
  exists forked,
    sideState w1 = Some forked /\ descends channel forked /\
    depositQueue (snd run) = None /\
    match fst (depositAttempt master channel deposit authorize w1) with
    | Ok updatedChannel =>
        exists updated,
          updatedChannel = Some updated /\
          value updated = value channel + deposit /\
          channelId updated = channelId channel /\
          contractAddress updated = contractAddress channel /\
          fst run = Ok (Some (mergeDeposit updated forked))
    | Throw err => fst run = Ok (Some forked)
    end.
Proof.
  intros Hready w1 run. subst run.
  destruct (depositSideQueue_solvent channel pending w)
    as ((_ & _ & _ & _ & _ & Hclock & _) & _).
  cbn zeta in Hclock. rewrite <- Hclock in Hready.
  destruct (depositToChannel_run master channel deposit authorize pending w Hready)
    as (forked & Hside & Hd & Hrun).
  fold w1 in Hside, Hrun. rewrite Hrun.
  exists forked. split; [exact Hside|]. split; [exact Hd|].
  pose proof (depositAttempt_ok master channel deposit authorize w1) as Hres.
  destruct (depositAttempt master channel deposit authorize w1) as [[r|e] w2];
    cbn [fst snd] in *.
  - destruct (Hres r eq_refl) as (updated & -> & Hv & Hid & Hc).
    split; [reflexivity|]. exists updated. auto.
  - split; reflexivity.
Qed.

End DepositSolvencyProofs.

(** In the scenario 2 of the channel's 5 gwei are spent and 7 are owed.  A
    deposit of 1 gwei, with one more [sendMoney] arriving meanwhile, ends
    with 5 of 6 gwei spent. *)
Lemma depositToChannel_keeps_channel_covered_witness :
  exists c',
    fst (depositToChannel Scenario.master Scenario.outgoingChannel 1000000000
           (fun _ => true) [None] Scenario.owing) = Ok (Some c') /\
    solvent c' /\
    transactions (snd (depositToChannel Scenario.master Scenario.outgoingChannel
                         1000000000 (fun _ => true) [None] Scenario.owing))
    = [TxDeposit "0x02" 1000000000].
Proof.
  destruct (depositToChannel_keeps_channel_covered Scenario.master
              Scenario.outgoingChannel 1000000000 (fun _ => true) [None]
              Scenario.owing)
    as (_ & _ & _ & c' & Hres & Hsolvent & _ & _ & _ & _ & Htx & _).
  - unfold solvent. cbn. lia.
  - lia.
  - exists c'. split; [exact Hres|]. split; [exact Hsolvent | exact Htx].
Defined.

(** 1 gwei is queued for payout and the channel holds 5 gwei, 2 of them
    spent.  A deposit of 1 gwei runs while a [sendMoney] for one more gwei
    arrives: the side-queue signs claims for 3 and then 4 gwei, and the
    committed state has the new value of 6 gwei with the claim for 4. *)
Lemma depositToChannel_merges_witness :
  (exists forked,
     sideState (snd (depositSideQueue Scenario.master Scenario.outgoingChannel
                       [Some 1] Outage.world)) = Some forked /\
     descends Scenario.outgoingChannel forked) /\
  fst (depositToChannel Scenario.master Scenario.outgoingChannel 1000000000
         (fun _ => true) [Some 1] Outage.world)
  = Ok (Some (mkChannel "0x02" Scenario.contract Scenario.wallet Scenario.peer
                6000000000 20 None 4000000000 (Some "0xsig"))) /\
  fst (depositToChannel Scenario.master Scenario.outgoingChannel 1000000000
         (fun _ => true) [] Outage.world)
  = Ok (Some (mkChannel "0x02" Scenario.contract Scenario.wallet Scenario.peer
                6000000000 20 None 3000000000 (Some "0xsig"))).
Proof.
  destruct (depositToChannel_merges Scenario.master Scenario.outgoingChannel
              1000000000 (fun _ => true) [Some 1] Outage.world)
    as (forked & Hside & Hd & _).
  { reflexivity. }
  split.
  - exists forked. split; [exact Hside | exact Hd].
  - split; vm_compute; reflexivity.
Defined.

(** ** fundOutgoingChannel and the auto-fund task *)

Section FundOutgoingProofs.

Variable master : EthereumPlugin.
Variable infoResponse : nat -> Result (option Buffer).
Variable generateChannelId : nat -> string.

(** [fundOutgoingChannel] spends on-chain only with consent: it submits at
    most one transaction, and only one whose fee [authorize] accepted.  With
    an outgoing channel that is a deposit of the given amount to it, and the
    call fails only if awaiting the contract handle or the gas price
    rejects, with nothing submitted and the cached channel as it was; with
    none it is the opening of a channel for the given amount to the peer's
    linked address, and when that call fails no channel is cached.  The
    receivable balance, the registry and the incoming channel are
    untouched. *)
Theorem fundOutgoingChannel_spends_only_with_consent amount authorize pending w :
  let run := fundOutgoingChannel master infoResponse generateChannelId
               amount authorize pending w in
  (transactions (snd run) = transactions w \/
   exists tx,
     transactions (snd run) = tx :: transactions w /\
     authorize (_txFee master tx) = true /\
     match outgoing (account w) with
     | Some c => tx = TxDeposit (channelId c) amount
     | None =>
         exists peerAddress,
           ethereumAddress (account (snd run)) = Some peerAddress /\
           tx = TxOpen (generateChannelId (clock w)) peerAddress
                  (_outgoingDisputePeriod master) amount
     end) /\
  receivableBalance (account (snd run)) = receivableBalance (account w) /\
  incoming (account (snd run)) = incoming (account w) /\
  store (snd run) = store w /\
  match fst run with
  | Ok r =>
      outgoing (account (snd run)) = r /\
      (forall c, outgoing (account w) = Some c ->
         exists c', r = Some c' /\ channelId c' = channelId c /\
                    spent c <= spent c')
  | Throw e =>
      (outgoing (account w) = None /\ outgoing (account (snd run)) = None) \/
      (e = ProviderError /\ _providerReady master (clock w) = false /\
       transactions (snd run) = transactions w /\
       exists c, outgoing (account w) = Some c /\
                 outgoing (account (snd run)) = Some c)
  end.
Proof.
  intros run. subst run.
  unfold fundOutgoingChannel, outgoingAdd, queueAdd.
  destruct (outgoing (account w)) as [c|] eqn:Hc.
  - pose proof (depositToChannel_cases master c amount authorize pending w) as H.
    cbn zeta in H. destruct H as (Hrecv & Hin & Hst & H).
    destruct (_providerReady master (clock w)) eqn:Hready.
    + destruct H as (c' & Hres & _ & Hid & _ & Hspent & _ & Htx).
      destruct (depositToChannel master c amount authorize pending w) as [r1 w1].
      cbn [fst snd] in *. subst r1. cbn [fst snd].
      cbn [account with_account transactions store receivableBalance incoming
           outgoing set_outgoing].
      split; [|repeat split; auto].
      * destruct (authorize _) eqn:Hauth.
        -- right. eexists. split; [apply Htx|]. split; [exact Hauth | reflexivity].
        -- left. apply Htx.
      * intros c0 [= <-]. exists c'. auto.
    + destruct H as (Hres & Htx & Hout & _).
      destruct (depositToChannel master c amount authorize pending w) as [r1 w1].
      cbn [fst snd] in *. subst r1. cbn [fst snd].
      split; [left; exact Htx|]. repeat split; auto.
      right. repeat split; auto. exists c. split; [reflexivity|].
      rewrite Hout. exact Hc.
  - pose proof (openChannel_cases master infoResponse generateChannelId amount
                  authorize w) as H.
    cbn zeta in H. destruct H as (Hacc & Hst & _ & _ & H).
    destruct (openChannel master infoResponse generateChannelId amount authorize w)
      as [r1 w1].
    cbn [fst snd] in *.
    destruct Hacc as (_ & Hrecv & _ & _ & Hin & Hout).
    destruct r1 as [[c'|]|e]; cbn [fst snd];
      cbn [account with_account transactions store receivableBalance incoming
           outgoing set_outgoing ethereumAddress].
    + destruct H as (Hlinked & Hauth & Htx & _).
      split; [|repeat split; auto; discriminate].
      right. eexists. split; [exact Htx|]. split; [exact Hauth|].
      destruct (ethereumAddress (account w1)) as [a|]; [|congruence].
      exists a. split; reflexivity.
    + destruct H as (_ & Htx). split; [left; exact Htx|].
      repeat split; auto; discriminate.
    + destruct H as (Hlinked & [(_ & _ & Htx) | (_ & Hauth & Htx)]).
      * split; [left; exact Htx|]. repeat split; auto. left. split; congruence.
      * split; [|repeat split; auto; left; split; congruence].
        right. eexists. split; [exact Htx|]. split; [exact Hauth|].
        destruct (ethereumAddress (account w1)) as [a|]; [|congruence].
        exists a. split; reflexivity.
Qed.


End FundOutgoingProofs.

(** ** handleData: what the peer is answered *)

Section ResponseProofs.

Variable master : EthereumPlugin.
Variable moneyHandler : Z -> bool.
Variable dataHandler : Z -> AccountData -> Result IlpReply * AccountData.

(** [handleData] fails on one kind of message only: a [machinomy] payload
    that is not JSON, or is [null].  Every other message is answered: [info]
    with this wallet's address, [ilp] with exactly one [ilp] response (the
    handler's reply, or the reject made from whatever went wrong), and
    [channelDeposit], [requestClose], a parsed [machinomy] payload and a
    message with none of these with the empty response, whether or not the
    work behind them succeeded. *)
Theorem handleData_response_shape message w :
  let run := handleData master moneyHandler dataHandler message w in
  match message with
  | PInfo _ => fst run = Ok [SubInfo (_wallet_address master)]
  | PIlp _ => exists response, fst run = Ok [SubIlp response]
  | PMachinomy (BufJson JNull) => fst run = Throw TypeError
  | PMachinomy (BufJson _) => fst run = Ok []
  | PMachinomy _ => fst run = Throw SyntaxError
  | PChannelDeposit | PRequestClose | PNone => fst run = Ok []
  end.
Proof.
  intros run. subst run.
  destruct message as [info| | |data|data|].
  - unfold handleData, bind, ret.
    destruct (linkEthereumAddress master info w) as [[[]|e] w1] eqn:Hlink;
      [reflexivity|].
    exfalso. revert Hlink.
    unfold linkEthereumAddress, JSON_parse, bind, catch, ret, throw, get,
      logAt, modify.
    repeat split_goal; discriminate.
  - unfold handleData, bind, get, catch, logAt, modify, ret.
    destruct (incoming (account w)) as [c|]; [|reflexivity].
    cbn beta iota.
    destruct (checkForDeposit master 21 c _) as [[[]|e] w1]; reflexivity.
  - unfold handleData, bind, catch, logAt, modify, ret. cbn beta iota.
    destruct (claimIfProfitable master false _ _) as [[r|e] w1]; reflexivity.
  - unfold handleData, JSON_parse, bind, catch, throw, logAt, modify, ret,
      autoFundOutgoingChannel.
    cbn beta iota.
    destruct data as [[| |address amount id sig contract]| |]; try reflexivity.
    destruct amount as [amount|], id as [id|], sig as [sig|],
      contract as [contract|]; try reflexivity.
    cbn beta iota.
    destruct (incomingAdd _ _) as [[r|e] w1]; reflexivity.
  - unfold handleData, deserializeIlpPrepare, callDataHandler, bind, catch,
      throw, get, logAt, modify, ret.
    cbn beta iota.
    repeat split_goal; eexists; reflexivity.
  - reflexivity.
Qed.

End ResponseProofs.

(** ** Runs on the moving chain *)

(** With no channel and no address, funding asks the peer for its address,
    opens channel ["0x03"] to it and sends the zero claim. *)
Example fundOutgoingChannel_opens :
  let run := fundOutgoingChannel Timeline.master Timeline.infoResponse
               Timeline.generateChannelId 2000000000 (fun _ => true) []
               Scenario.world in
  fst run = Ok (Some (mkChannel "0x03" Scenario.contract Scenario.wallet
                        Scenario.peer 2000000000 20 None 0 (Some "0xsig"))) /\
  transactions (snd run) = [TxOpen "0x03" Scenario.peer 20 2000000000] /\
  sent (snd run) = [MsgMachinomy "0x03" (Some "0xsig") 0 Scenario.contract;
                    MsgInfo Scenario.wallet].
Proof. vm_compute. repeat split. Qed.

(** A caller that accepts no fee of 100 wei gets nothing opened. *)
Example fundOutgoingChannel_rejected :
  let run := fundOutgoingChannel Timeline.master Timeline.infoResponse
               Timeline.generateChannelId 2000000000 (fun fee => fee <? 100) []
               Scenario.world in
  fst run = Throw AuthorizeRejected /\ transactions (snd run) = [] /\
  outgoing (account (snd run)) = None.
Proof. vm_compute. repeat split. Qed.

(** The peer closes our channel ["0x02"], which shows at the third look. *)
Example requestClose_forgets_closed_channel :
  let run := requestClose Timeline.master Timeline.closeAcknowledged
               (with_account (set_outgoing (Some Scenario.outgoingChannel))
                  Scenario.world) in
  fst run = Ok None /\ outgoing (account (snd run)) = None /\
  sent (snd run) = [MsgRequestClose] /\ transactions (snd run) = [].
Proof. vm_compute. repeat split. Qed.
